(** * doc_summary_lib: filename sanitizer, PII guardrails and the
      Converse-API task functions

    A shallow embedding of [doc_summary_lib.py].  Python [str] values are
    sequences of Unicode code points; the [re] module is embedded for the
    fragment of the pattern language the library uses (sequences of
    quantified character classes and [\b] assertions), with Python's
    leftmost, greedy, backtracking semantics. *)

From Stdlib Require Import List NArith ZArith Bool Lia String Ascii DecimalString
  DecimalZ.
Import ListNotations.

Set Implicit Arguments.
Set Warnings "-register-all".

(** ** Python strings *)

Module PyStr.

(** A character is a Unicode code point. *)
Definition char := N.
Definition str := list char.

Definition ch (a : ascii) : char := N_of_ascii a.

(** A string literal of the source (all literals of the library are ASCII). *)
Definition lit (s : string) : str := map ch (list_ascii_of_string s).

Definition eqc (a : ascii) (c : char) : bool := N.eqb c (ch a).

(** [lo <= c <= hi], a range of a character class such as [a-z]. *)
Definition between (lo hi : ascii) (c : char) : bool :=
  N.leb (ch lo) c && N.leb c (ch hi).

Definition str_eqb (a b : str) : bool :=
  if list_eq_dec N.eq_dec a b then true else false.

(** [str.startswith]. *)
Fixpoint starts_with (p s : str) : bool :=
  match p, s with
  | [], _ => true
  | a :: p', c :: s' => N.eqb a c && starts_with p' s'
  | _ :: _, [] => false
  end.

(** [needle in hay]. *)
Fixpoint contains (needle hay : str) : bool :=
  starts_with needle hay ||
  match hay with
  | [] => false
  | _ :: hay' => contains needle hay'
  end.

(** [bool(s)]: the empty string is falsy. *)
Definition truthy (s : str) : bool :=
  match s with [] => false | _ :: _ => true end.

(** [str.isspace] on one character: the code points CPython's
    [_PyUnicode_IsWhitespace] accepts. *)
Definition isspace (c : char) : bool :=
  (N.leb 9 c && N.leb c 13) || (N.leb 28 c && N.leb c 32) ||
  N.eqb c 133 || N.eqb c 160 || N.eqb c 5760 ||
  (N.leb 8192 c && N.leb c 8202) || N.eqb c 8232 || N.eqb c 8233 ||
  N.eqb c 8239 || N.eqb c 8287 || N.eqb c 12288.

Fixpoint lstrip (s : str) : str :=
  match s with
  | c :: s' => if isspace c then lstrip s' else s
  | [] => []
  end.

Definition rstrip (s : str) : str := rev (lstrip (rev s)).

(** [s.strip()] with no argument. *)
Definition strip (s : str) : str := rstrip (lstrip s).

(** [str(n)] for an [int]. *)
Definition str_of_int (z : Z) : str :=
  lit (NilZero.string_of_int (Z.to_int z)).

End PyStr.
Import PyStr.

(** ** The [re] module *)

Module Re.

(** One element of a pattern: a character class with a greedy
    quantifier, [cls{lo,hi}] ([hi = None] for an open bound), or a
    zero-width assertion on the characters before and after the current
    position. *)
Inductive item : Type :=
| Rep (cls : char -> bool) (lo : nat) (hi : option nat)
| Assert (a : option char -> option char -> bool).

Definition regex := list item.

(** Length of the longest prefix of [s] inside [cls]. *)
Fixpoint run_all (cls : char -> bool) (s : str) : nat :=
  match s with
  | [] => 0
  | c :: s' => if cls c then S (run_all cls s') else 0
  end.

(** The same, but at most [h] characters. *)
Fixpoint run_upto (cls : char -> bool) (h : nat) (s : str) : nat :=
  match h with
  | 0 => 0
  | S h' =>
      match s with
      | [] => 0
      | c :: s' => if cls c then S (run_upto cls h' s') else 0
      end
  end.

(** What a greedy [cls{lo,hi}] first consumes. *)
Definition run (cls : char -> bool) (hi : option nat) (s : str) : nat :=
  match hi with
  | Some h => run_upto cls h s
  | None => run_all cls s
  end.

(** The character before the position reached after consuming [taken]. *)
Definition prev_after (prev : option char) (taken : str) : option char :=
  match rev taken with
  | [] => prev
  | c :: _ => Some c
  end.

(** Greedy repetition: try to consume [n] characters, then [n-1], ...,
    down to [lo], and keep the first count for which the rest of the
    pattern, [k], matches. *)
Fixpoint backtrack (k : option char -> str -> option nat)
         (prev : option char) (s : str) (lo n : nat) : option nat :=
  if Nat.ltb n lo then None
  else
    match k (prev_after prev (firstn n s)) (skipn n s) with
    | Some m => Some (n + m)
    | None =>
        match n with
        | 0 => None
        | S n' => backtrack k prev s lo n'
        end
    end.

(** Anchored match at the current position: the length of the match. *)
Fixpoint match_here (p : regex) (prev : option char) (s : str) : option nat :=
  match p with
  | [] => Some 0
  | Assert a :: p' =>
      if a prev (hd_error s) then match_here p' prev s else None
  | Rep cls lo hi :: p' =>
      backtrack (match_here p') prev s lo (run cls hi s)
  end.

(** Left-to-right scan for non-overlapping matches.  [skip] counts the
    characters of the current match that are still to be passed over.
    None of the library's patterns matches the empty string (each
    has a class that must be consumed at least once), so a zero-length
    result is not a match here. *)
Fixpoint sub_from (p : regex) (repl : str) (skip : nat)
         (prev : option char) (s : str) : str :=
  match s with
  | [] => []
  | c :: s' =>
      match skip with
      | S k => sub_from p repl k (Some c) s'
      | 0 =>
          match match_here p prev s with
          | Some (S n) => repl ++ sub_from p repl n (Some c) s'
          | _ => c :: sub_from p repl 0 (Some c) s'
          end
      end
  end.

Fixpoint findall_from (p : regex) (skip : nat)
         (prev : option char) (s : str) : list str :=
  match s with
  | [] => []
  | c :: s' =>
      match skip with
      | S k => findall_from p k (Some c) s'
      | 0 =>
          match match_here p prev s with
          | Some (S n) => firstn (S n) s :: findall_from p n (Some c) s'
          | _ => findall_from p 0 (Some c) s'
          end
      end
  end.

(** [re.sub(p, repl, s)] for a replacement without group references. *)
Definition sub (p : regex) (repl s : str) : str := sub_from p repl 0 None s.

(** [re.findall(p, s)] for a pattern without groups. *)
Definition findall (p : regex) (s : str) : list str := findall_from p 0 None s.

(** [re.search(p, s) is not None] *)
Fixpoint search_from (p : regex) (prev : option char) (s : str) : bool :=
  match s with
  | [] => false
  | c :: s' =>
      match match_here p prev s with
      | Some (S _) => true
      | _ => search_from p (Some c) s'
      end
  end.

Definition search (p : regex) (s : str) : bool := search_from p None s.

(** The characters a pattern can consume. *)
Definition in_classes (p : regex) (c : char) : bool :=
  existsb (fun it => match it with Rep cls _ _ => cls c | Assert _ => false end) p.

(** The least number of characters a match of the pattern consumes. *)
Fixpoint min_length (p : regex) : nat :=
  match p with
  | [] => 0
  | Rep _ lo _ :: p' => lo + min_length p'
  | Assert _ :: p' => min_length p'
  end.

End Re.

(** ** [sanitize_filename] *)

(** The class [[a-zA-Z0-9 \-\(\)\[\]]]. *)
Definition allowed (c : char) : bool :=
  between "a" "z" c || between "A" "Z" c || between "0" "9" c ||
  eqc " " c || eqc "-" c || eqc "(" c || eqc ")" c || eqc "[" c || eqc "]" c.

(** r'[^a-zA-Z0-9 \-\(\)\[\]]' *)
Definition re_invalid : Re.regex := [Re.Rep (fun c => negb (allowed c)) 1 (Some 1)].

(** r' {2,}' *)
Definition re_spaces : Re.regex := [Re.Rep (eqc " ") 2 None].

Definition default_name : str := lit "document.pdf".

(** The argument is [None] for Python's [None]. *)
Definition sanitize_filename (filename : option str) : str :=
  match filename with
  | None => default_name
  | Some f =>
      if negb (truthy f) then default_name
      else
        let sanitized := Re.sub re_invalid (lit "_") f in
        let sanitized := Re.sub re_spaces (lit " ") sanitized in
        let sanitized := strip sanitized in
        if negb (truthy sanitized) then default_name
        else sanitized
  end.

(** ** [apply_guardrails] *)

(** The part of the Unicode character database that [\d] and [\b] consult
    outside Basic Latin: [str.isdecimal] (category Nd) and [str.isalnum]. *)
Class UnicodeDB : Type := {
  uni_decimal : char -> bool;
  uni_alnum : char -> bool
}.

Inductive Action : Type := ALLOWED | FILTERED.

Record GuardrailResult : Type := {
  filtered_text : str;
  redactions : list str;
  action : Action
}.

Section Guardrails.

Context {U : UnicodeDB}.

(** [\d] on a [str] pattern. *)
Definition digit (c : char) : bool :=
  if N.ltb c 128 then between "0" "9" c else uni_decimal c.

(** [\w] on a [str] pattern: alphanumeric or underscore. *)
Definition word (c : char) : bool :=
  if N.ltb c 128 then
    between "a" "z" c || between "A" "Z" c || between "0" "9" c || eqc "_" c
  else uni_alnum c.

Definition is_word (o : option char) : bool :=
  match o with
  | Some c => word c
  | None => false
  end.

(** [\b]: exactly one side of the position is a word character. *)
Definition word_boundary (prev next : option char) : bool :=
  xorb (is_word prev) (is_word next).

Definition wb : Re.item := Re.Assert word_boundary.
Definition one (a : ascii) : Re.item := Re.Rep (eqc a) 1 (Some 1).

(** [[A-Za-z0-9._%+-]] *)
Definition email_local (c : char) : bool :=
  between "A" "Z" c || between "a" "z" c || between "0" "9" c ||
  eqc "." c || eqc "_" c || eqc "%" c || eqc "+" c || eqc "-" c.

(** [[A-Za-z0-9.-]] *)
Definition email_domain (c : char) : bool :=
  between "A" "Z" c || between "a" "z" c || between "0" "9" c ||
  eqc "." c || eqc "-" c.

(** [[A-Z|a-z]]: the bar is a member of the class. *)
Definition email_tld (c : char) : bool :=
  between "A" "Z" c || eqc "|" c || between "a" "z" c.

(** r'\b\d{3}-\d{2}-\d{4}\b' *)
Definition re_ssn : Re.regex :=
  [wb; Re.Rep digit 3 (Some 3); one "-"; Re.Rep digit 2 (Some 2); one "-";
   Re.Rep digit 4 (Some 4); wb].

(** r'\b\d{16}\b' *)
Definition re_card : Re.regex := [wb; Re.Rep digit 16 (Some 16); wb].

(** r'\b[A-Za-z0-9._%+-]+@[A-Za-z0-9.-]+\.[A-Z|a-z]{2,}\b' *)
Definition re_email : Re.regex :=
  [wb; Re.Rep email_local 1 None; one "@"; Re.Rep email_domain 1 None;
   one "."; Re.Rep email_tld 2 None; wb].

Definition ssn_redacted : str := lit "[SSN_REDACTED]".
Definition card_redacted : str := lit "[CARD_REDACTED]".
Definition email_redacted : str := lit "[EMAIL_REDACTED]".

Definition sensitive_patterns : list (Re.regex * str) :=
  [(re_ssn, ssn_redacted); (re_card, card_redacted); (re_email, email_redacted)].

(** One iteration of the loop over [sensitive_patterns]; the state is
    [(filtered_text, redactions)]. *)
Definition guard_step (st : str * list str) (pr : Re.regex * str) : str * list str :=
  let '(text, reds) := st in
  let '(pattern, replacement) := pr in
  let matches := Re.findall pattern text in
  match matches with
  | [] => (text, reds)
  | _ :: _ => (Re.sub pattern replacement text, reds ++ matches)
  end.

Definition apply_guardrails (text : str) : GuardrailResult :=
  let '(text', reds) := fold_left guard_step sensitive_patterns (text, []) in
  {| filtered_text := text';
     redactions := reds;
     action := match reds with [] => ALLOWED | _ :: _ => FILTERED end |}.

(** The text after each of the three passes of the loop, in order. *)
Definition pass_ssn (t : str) : str := Re.sub re_ssn ssn_redacted t.
Definition pass_card (t : str) : str := Re.sub re_card card_redacted (pass_ssn t).
Definition pass_email (t : str) : str := Re.sub re_email email_redacted (pass_card t).

End Guardrails.

(** A database with nothing outside Basic Latin, for running examples on
    ASCII text (ASCII characters never reach the tables). *)
Definition basic_latin : UnicodeDB :=
  {| uni_decimal := fun _ => false; uni_alnum := fun _ => false |}.

(** ** Python values, exceptions and the uploaded file *)

(** The values a Converse response or a result [dict] is built from.
    Dictionaries keep insertion order and have [str] keys. *)
Inductive pyval : Type :=
| VNone
| VBool (b : bool)
| VInt (z : Z)
| VStr (s : str)
| VList (l : list pyval)
| VDict (d : list (str * pyval)).

(** A raised exception: whether it is an instance of botocore's
    [ClientError], and its [str(e)]. *)
Record exn : Type := {
  is_client_error : bool;
  exn_text : str
}.

(** [Exception(msg)] *)
Definition Exception (msg : str) : exn :=
  {| is_client_error := false; exn_text := msg |}.

Inductive outcome (A : Type) : Type :=
| Return (a : A)
| Raise (e : exn).
Arguments Return {A} a.
Arguments Raise {A} e.

(** The uploaded file: an open in-memory binary stream with a name. *)
Record file : Type := {
  name : option str;
  content : list Byte.byte;
  pos : nat
}.

(** [f.seek(0)] *)
Definition seek0 (f : file) : file :=
  {| name := name f; content := content f; pos := 0 |}.

(** [f.read()]: everything from the current position to the end. *)
Definition read (f : file) : file * list Byte.byte :=
  ({| name := name f; content := content f; pos := Nat.max (pos f) (List.length (content f)) |},
   skipn (pos f) (content f)).

(** ** The Converse request *)

Inductive content_block : Type :=
| Document (doc_name : str) (doc_format : str) (doc_bytes : list Byte.byte)
| Text (text : str).

Record message : Type := {
  role : str;
  msg_content : list content_block
}.

(** Temperatures are the decimal literals of the source, in tenths. *)
Record inference_config : Type := {
  maxTokens : Z;
  temperature_tenths : Z
}.

Record request : Type := {
  modelId : str;
  messages : list message;
  inferenceConfig : inference_config
}.

Definition DEFAULT_LLM_MODEL : str := lit "anthropic.claude-3-sonnet-20240229-v1:0".

Definition lookup (k : str) (d : list (str * pyval)) : option pyval :=
  match find (fun kv => str_eqb (fst kv) k) d with
  | Some kv => Some (snd kv)
  | None => None
  end.

Inductive subscript : Type :=
| Key (k : str)
| Index0.

(** The value of [v[k]] or [v[0]], when the subscript succeeds: a key of
    a dictionary, the first element of a list, the first character of a
    string. *)
Definition subscript_value (v : pyval) (i : subscript) : option pyval :=
  match i, v with
  | Key k, VDict d => lookup k d
  | Index0, VList (x :: _) => Some x
  | Index0, VStr (c :: _) => Some (VStr [c])
  | _, _ => None
  end.

(** A chain of subscripts, [v[i1][i2]...]. *)
Fixpoint dig (v : pyval) (path : list subscript) : option pyval :=
  match path with
  | [] => Some v
  | i :: path' =>
      match subscript_value v i with
      | Some x => dig x path'
      | None => None
      end
  end.

(** ** The task functions *)

(** The entry points of the library with their task parameters, for
    statements that range over all of them. *)
Inductive task : Type :=
| Summarize (summary_style : str)
| CustomPrompt (prompt : str)
| Sentiment
| Topics (num_topics : Z)
| QuestionAnswer (question : str) (use_guardrails : bool).

(** The [bytes] of the document parts of a request and its text parts. *)
Definition document_bytes (req : request) : list (list Byte.byte) :=
  flat_map (fun m =>
    flat_map (fun b => match b with Document _ _ bytes => [bytes] | Text _ => [] end)
             (msg_content m)) (messages req).

Definition text_parts (req : request) : list str :=
  flat_map (fun m =>
    flat_map (fun b => match b with Document _ _ _ => [] | Text t => [t] end)
             (msg_content m)) (messages req).

Section Tasks.

Context {U : UnicodeDB}.

(** The remote service: [bedrock_runtime.converse], with whatever state
    the client and the service keep between calls. *)
Variable client : Type.
Variable converse : client -> request -> client * outcome pyval.

(** The exception Python raises for a failed [v[k]] or [v[0]]
    ([KeyError], [IndexError] or [TypeError]; none is a [ClientError]),
    and for [re.findall] on a value that is not a string. *)
Variable subscript_error : pyval -> subscript -> str.
Variable not_a_string_error : pyval -> str.

Record world : Type := {
  pdf_file : file;
  bedrock_runtime : client
}.

(** Computations of the library: state passing with exceptions. *)
Definition M (A : Type) : Type := world -> world * outcome A.

Definition ret {A} (a : A) : M A := fun w => (w, Return a).
Definition raise {A} (e : exn) : M A := fun w => (w, Raise e).
Definition bind {A B} (m : M A) (k : A -> M B) : M B :=
  fun w => match m w with
           | (w', Return a) => k a w'
           | (w', Raise e) => (w', Raise e)
           end.
(** [try: m  except Exception as e: h e] *)
Definition try_except {A} (m : M A) (h : exn -> M A) : M A :=
  fun w => match m w with
           | (w', Return a) => (w', Return a)
           | (w', Raise e) => h e w'
           end.

Notation "x <- m ;; k" := (bind m (fun x => k))
  (at level 61, m at next level, right associativity).
Notation "m ;;; k" := (bind m (fun _ => k))
  (at level 61, right associativity).

Definition file_seek0 : M unit :=
  fun w => ({| pdf_file := seek0 (pdf_file w); bedrock_runtime := bedrock_runtime w |},
            Return tt).
Definition file_read : M (list Byte.byte) :=
  fun w => let '(f, bytes) := read (pdf_file w) in
           ({| pdf_file := f; bedrock_runtime := bedrock_runtime w |}, Return bytes).
Definition file_name : M (option str) :=
  fun w => (w, Return (name (pdf_file w))).
Definition call_converse (req : request) : M pyval :=
  fun w => let '(c, r) := converse (bedrock_runtime w) req in
           ({| pdf_file := pdf_file w; bedrock_runtime := c |}, r).

(** [v[k]] and [v[0]] *)
Definition getitem (v : pyval) (i : subscript) : M pyval :=
  match subscript_value v i with
  | Some x => ret x
  | None => raise (Exception (subscript_error v i))
  end.

(** [response['output']['message']['content'][0]['text']] *)
Definition response_text (response : pyval) : M pyval :=
  o <- getitem response (Key (lit "output")) ;;
  m <- getitem o (Key (lit "message")) ;;
  c <- getitem m (Key (lit "content")) ;;
  b <- getitem c Index0 ;;
  getitem b (Key (lit "text")).

(** [response['usage'][k]] *)
Definition response_usage (response : pyval) (k : str) : M pyval :=
  u <- getitem response (Key (lit "usage")) ;;
  getitem u (Key k).

(** The [doc_message] every task builds. *)
Definition doc_message (fname : option str) (pdf_bytes : list Byte.byte)
           (prompt : str) : message :=
  {| role := lit "user";
     msg_content := [Document (sanitize_filename fname) (lit "pdf") pdf_bytes;
                     Text prompt] |}.

Definition style_prompts : list (str * str) :=
  [(lit "concise", lit "Provide a concise summary of this document in 2-3 paragraphs.");
   (lit "detailed", lit "Provide a detailed and comprehensive summary of this document, covering all key points.");
   (lit "bullet-points", lit "Summarize this document using clear bullet points, highlighting the main ideas.");
   (lit "executive", lit "Provide an executive summary suitable for senior leadership, focusing on key insights and actionable items.")].

(** [d.get(k, default)] *)
Definition dict_get (d : list (str * str)) (k : str) (default : str) : str :=
  match find (fun kv => str_eqb (fst kv) k) d with
  | Some kv => snd kv
  | None => default
  end.

(** [style_prompts["concise"]]; the key is present. *)
Definition concise_prompt : str := dict_get style_prompts (lit "concise") [].

(** [style_prompts.get(summary_style, style_prompts["concise"])] *)
Definition summary_prompt (summary_style : str) : str :=
  dict_get style_prompts summary_style concise_prompt.

Definition summarize_pdf_document (summary_style : str) (model_id : str) : M pyval :=
  try_except
    (let prompt := summary_prompt summary_style in
     file_seek0 ;;;
     pdf_bytes <- file_read ;;
     fname <- file_name ;;
     let doc := doc_message fname pdf_bytes prompt in
     response <- call_converse
       {| modelId := model_id; messages := [doc];
          inferenceConfig := {| maxTokens := 4096; temperature_tenths := 5 |} |} ;;
     summary <- response_text response ;;
     input_tokens <- response_usage response (lit "inputTokens") ;;
     output_tokens <- response_usage response (lit "outputTokens") ;;
     stop_reason <- getitem response (Key (lit "stopReason")) ;;
     ret (VDict [(lit "summary", summary);
                 (lit "model", VStr model_id);
                 (lit "input_tokens", input_tokens);
                 (lit "output_tokens", output_tokens);
                 (lit "stop_reason", stop_reason)]))
    (fun e =>
       if is_client_error e
       then raise (Exception (lit "Bedrock API error: " ++ exn_text e))
       else raise (Exception (lit "Error summarizing PDF document: " ++ exn_text e))).

Definition summarize_pdf_with_converse (prompt : str) (model_id : str) : M pyval :=
  try_except
    (file_seek0 ;;;
     pdf_bytes <- file_read ;;
     fname <- file_name ;;
     let doc := doc_message fname pdf_bytes prompt in
     response <- call_converse
       {| modelId := model_id; messages := [doc];
          inferenceConfig := {| maxTokens := 4096; temperature_tenths := 5 |} |} ;;
     summary <- response_text response ;;
     input_tokens <- response_usage response (lit "inputTokens") ;;
     output_tokens <- response_usage response (lit "outputTokens") ;;
     stop_reason <- getitem response (Key (lit "stopReason")) ;;
     ret (VDict [(lit "summary", summary);
                 (lit "model", VStr model_id);
                 (lit "input_tokens", input_tokens);
                 (lit "output_tokens", output_tokens);
                 (lit "stop_reason", stop_reason)]))
    (fun e =>
       if is_client_error e
       then raise (Exception (lit "Bedrock API error: " ++ exn_text e))
       else raise (Exception (lit "Error with custom PDF prompt: " ++ exn_text e))).

Definition newline : str := [10%N].

Definition sentiment_prompt : str :=
  lit "Analyze the sentiment and tone of this document. Provide:" ++ newline ++
  lit "1. Overall sentiment (positive/negative/neutral)" ++ newline ++
  lit "2. Key emotional tones" ++ newline ++
  lit "3. Writing style".

Definition analyze_document_sentiment (model_id : str) : M pyval :=
  try_except
    (let prompt := sentiment_prompt in
     file_seek0 ;;;
     pdf_bytes <- file_read ;;
     fname <- file_name ;;
     let doc := doc_message fname pdf_bytes prompt in
     response <- call_converse
       {| modelId := model_id; messages := [doc];
          inferenceConfig := {| maxTokens := 2048; temperature_tenths := 3 |} |} ;;
     analysis <- response_text response ;;
     ret (VDict [(lit "analysis", analysis); (lit "model", VStr model_id)]))
    (fun e => raise (Exception (lit "Error analyzing sentiment: " ++ exn_text e))).

Definition topics_prompt (num_topics : Z) : str :=
  lit "Extract the top " ++ str_of_int num_topics ++
  lit " key topics or themes from this document. For each topic, provide a brief description.".

Definition extract_key_topics (num_topics : Z) (model_id : str) : M pyval :=
  try_except
    (let prompt := topics_prompt num_topics in
     file_seek0 ;;;
     pdf_bytes <- file_read ;;
     fname <- file_name ;;
     let doc := doc_message fname pdf_bytes prompt in
     response <- call_converse
       {| modelId := model_id; messages := [doc];
          inferenceConfig := {| maxTokens := 2048; temperature_tenths := 3 |} |} ;;
     topics <- response_text response ;;
     ret (VDict [(lit "topics", topics); (lit "model", VStr model_id)]))
    (fun e => raise (Exception (lit "Error extracting topics: " ++ exn_text e))).

(** The question after the optional guardrail pass. *)
Definition guarded_question (question : str) (use_guardrails : bool) : str :=
  if use_guardrails then
    let guardrail_result := apply_guardrails question in
    if match redactions guardrail_result with [] => false | _ :: _ => true end
    then filtered_text guardrail_result
    else question
  else question.

Definition question_prompt (question : str) : str :=
  lit "Based on this document, answer: " ++ question.

(** The answer after the optional guardrail pass; [re.findall] raises
    on a value that is not a string. *)
Definition guarded_answer (answer : pyval) (use_guardrails : bool) : M pyval :=
  if use_guardrails then
    match answer with
    | VStr a => ret (VStr (filtered_text (apply_guardrails a)))
    | _ => raise (Exception (not_a_string_error answer))
    end
  else ret answer.

Definition answer_questions_about_document (question : str) (model_id : str)
           (use_guardrails : bool) : M pyval :=
  try_except
    (let question := guarded_question question use_guardrails in
     file_seek0 ;;;
     pdf_bytes <- file_read ;;
     fname <- file_name ;;
     let doc := doc_message fname pdf_bytes (question_prompt question) in
     response <- call_converse
       {| modelId := model_id; messages := [doc];
          inferenceConfig := {| maxTokens := 2048; temperature_tenths := 2 |} |} ;;
     answer <- response_text response ;;
     answer <- guarded_answer answer use_guardrails ;;
     input_tokens <- response_usage response (lit "inputTokens") ;;
     output_tokens <- response_usage response (lit "outputTokens") ;;
     ret (VDict [(lit "answer", answer);
                 (lit "question", VStr question);
                 (lit "model", VStr model_id);
                 (lit "input_tokens", input_tokens);
                 (lit "output_tokens", output_tokens)]))
    (fun e => raise (Exception (lit "Error answering question: " ++ exn_text e))).

(** *** All tasks at once *)

Definition run_task (t : task) (model_id : str) : M pyval :=
  match t with
  | Summarize style => summarize_pdf_document style model_id
  | CustomPrompt prompt => summarize_pdf_with_converse prompt model_id
  | Sentiment => analyze_document_sentiment model_id
  | Topics n => extract_key_topics n model_id
  | QuestionAnswer q g => answer_questions_about_document q model_id g
  end.

(** The text part each task sends. *)
Definition task_prompt (t : task) : str :=
  match t with
  | Summarize style => summary_prompt style
  | CustomPrompt prompt => prompt
  | Sentiment => sentiment_prompt
  | Topics n => topics_prompt n
  | QuestionAnswer q g => question_prompt (guarded_question q g)
  end.

Definition task_config (t : task) : inference_config :=
  match t with
  | Summarize _ | CustomPrompt _ => {| maxTokens := 4096; temperature_tenths := 5 |}
  | Sentiment | Topics _ => {| maxTokens := 2048; temperature_tenths := 3 |}
  | QuestionAnswer _ _ => {| maxTokens := 2048; temperature_tenths := 2 |}
  end.

(** The request a task builds from the file [f]. *)
Definition task_request (t : task) (model_id : str) (f : file) : request :=
  {| modelId := model_id;
     messages := [doc_message (name f) (content f) (task_prompt t)];
     inferenceConfig := task_config t |}.

(** The text put in front of [str(e)] by the handler that catches [e]. *)
Definition task_error_prefix (t : task) (client_error : bool) : str :=
  match t with
  | Summarize _ =>
      if client_error then lit "Bedrock API error: "
      else lit "Error summarizing PDF document: "
  | CustomPrompt _ =>
      if client_error then lit "Bedrock API error: "
      else lit "Error with custom PDF prompt: "
  | Sentiment => lit "Error analyzing sentiment: "
  | Topics _ => lit "Error extracting topics: "
  | QuestionAnswer _ _ => lit "Error answering question: "
  end.

(** The file after [seek(0)] and [read()]. *)
Definition file_after_read (f : file) : file := fst (read (seek0 f)).

(** The world after a task: the file has been read to its end and the
    client is in state [c]. *)
Definition world_after (w : world) (c : client) : world :=
  {| pdf_file := file_after_read (pdf_file w); bedrock_runtime := c |}.

End Tasks.

(** A client that also keeps the list of the requests it was called with. *)
Definition logging (client : Type)
           (converse : client -> request -> client * outcome pyval)
  : client * list request -> request -> (client * list request) * outcome pyval :=
  fun st req =>
    let '(c, r) := converse (fst st) req in
    ((c, snd st ++ [req]), r).

(** ** The sanitizer as the specification words it *)

(** "every disallowed character is replaced with [_]" *)
Definition replace_disallowed (c : char) : char :=
  if allowed c then c else ch "_".

(** "any run of two or more consecutive spaces collapses to one space":
    a space followed by a space is dropped. *)
Fixpoint collapse_spaces (s : str) : str :=
  match s with
  | [] => []
  | c :: s' =>
      match s' with
      | d :: _ => if eqc " " c && eqc " " d then collapse_spaces s'
                  else c :: collapse_spaces s'
      | [] => [c]
      end
  end.

Fixpoint trim_left (s : str) : str :=
  match s with
  | c :: s' => if eqc " " c then trim_left s' else s
  | [] => []
  end.

(** "leading/trailing space is trimmed" *)
Definition trim_spaces (s : str) : str := rev (trim_left (rev (trim_left s))).

Definition sanitize_spec (filename : option str) : str :=
  match filename with
  | None => lit "document.pdf"
  | Some f =>
      match trim_spaces (collapse_spaces (map replace_disallowed f)) with
      | [] => lit "document.pdf"
      | r => r
      end
  end.

(** ** Predicates of the claims *)

(** A character the sanitizer leaves in place: an allowed one or the
    replacement character. *)
Definition sanitized_char (c : char) : bool := allowed c || eqc "_" c.

Definition sanitized_str (s : str) : Prop := Forall (fun c => sanitized_char c = true) s.

(** The string does not start with a space. *)
Definition starts_clean (s : str) : bool :=
  match s with
  | c :: _ => negb (eqc " " c)
  | [] => true
  end.

(** The body of [sanitize_filename] on a non-empty name, in the words of
    the specification. *)
Definition cleaned (f : str) : str :=
  trim_spaces (collapse_spaces (map replace_disallowed f)).

Definition prefix (n h : str) : Prop := exists t, h = n ++ t.

(** The two strings have no character in common. *)
Definition disjoint (a b : str) : Prop := forall x, In x a -> In x b -> False.

(** [needle] occurs in [hay] as a contiguous substring. *)
Definition occurs (needle hay : str) : Prop :=
  exists l r, hay = l ++ needle ++ r.

(** No two consecutive spaces. *)
Fixpoint single_spaced (s : str) : bool :=
  match s with
  | [] => true
  | c :: s' =>
      match s' with
      | d :: _ => negb (eqc " " c && eqc " " d) && single_spaced s'
      | [] => true
      end
  end.

(** The last character of [l], or [prev] when [l] is empty. *)
Definition last_char (prev : option char) (l : str) : option char :=
  Re.prev_after prev l.

Definition raw_ssn : str := lit "123-45-6789".

(** [needle] stands in [t] between word boundaries. *)
Definition delimited `{UnicodeDB} (needle t : str) : Prop :=
  exists l r, t = l ++ needle ++ r /\
              is_word (last_char None l) = false /\ is_word (hd_error r) = false.

(** Every occurrence of [needle] in [t] is between word boundaries. *)
Definition always_delimited `{UnicodeDB} (needle t : str) : Prop :=
  forall l r, t = l ++ needle ++ r ->
              is_word (last_char None l) = false /\ is_word (hd_error r) = false.

(** The places of a Converse response the tasks read. *)
Definition text_path : list subscript :=
  [Key (lit "output"); Key (lit "message"); Key (lit "content"); Index0; Key (lit "text")].
Definition usage_path (k : str) : list subscript := [Key (lit "usage"); Key k].

(** What each task returns for the response [resp]. *)
Definition result_shape `{UnicodeDB} (t : task) (model_id : str)
           (resp result : pyval) : Prop :=
  exists text, dig resp text_path = Some text /\
  match t with
  | Summarize _ | CustomPrompt _ =>
      exists input_tokens output_tokens stop_reason,
        dig resp (usage_path (lit "inputTokens")) = Some input_tokens /\
        dig resp (usage_path (lit "outputTokens")) = Some output_tokens /\
        dig resp [Key (lit "stopReason")] = Some stop_reason /\
        result = VDict [(lit "summary", text);
                        (lit "model", VStr model_id);
                        (lit "input_tokens", input_tokens);
                        (lit "output_tokens", output_tokens);
                        (lit "stop_reason", stop_reason)]
  | Sentiment =>
      result = VDict [(lit "analysis", text); (lit "model", VStr model_id)]
  | Topics _ =>
      result = VDict [(lit "topics", text); (lit "model", VStr model_id)]
  | QuestionAnswer q g =>
      exists answer input_tokens output_tokens,
        (if g then exists a, text = VStr a /\
                             answer = VStr (filtered_text (apply_guardrails a))
         else answer = text) /\
        dig resp (usage_path (lit "inputTokens")) = Some input_tokens /\
        dig resp (usage_path (lit "outputTokens")) = Some output_tokens /\
        result = VDict [(lit "answer", answer);
                        (lit "question", VStr (guarded_question q g));
                        (lit "model", VStr model_id);
                        (lit "input_tokens", input_tokens);
                        (lit "output_tokens", output_tokens)]
  end.

(** ** Sample data *)

(** A well-formed Converse response, an uploaded file and a client that
    always answers with that response, for running the tasks. *)
Definition sample_response : pyval :=
  VDict [(lit "output",
          VDict [(lit "message",
                  VDict [(lit "role", VStr (lit "assistant"));
                         (lit "content", VList [VDict [(lit "text", VStr (lit "X"))]])])]);
         (lit "stopReason", VStr (lit "end_turn"));
         (lit "usage", VDict [(lit "inputTokens", VInt 10);
                              (lit "outputTokens", VInt 5);
                              (lit "totalTokens", VInt 15)])].

Definition sample_file : file :=
  {| name := Some (lit "report.pdf"); content := [Byte.x25; Byte.x50; Byte.x44; Byte.x46]; pos := 4 |}.

Definition sample_converse (c : unit) (req : request) : unit * outcome pyval :=
  (c, Return sample_response).

Definition failing_converse (c : unit) (req : request) : unit * outcome pyval :=
  (c, Raise {| is_client_error := true; exn_text := lit "ThrottlingException" |}).

Definition no_text (v : pyval) (i : subscript) : str := [].
Definition no_text' (v : pyval) : str := [].

Definition sample_world : world unit :=
  {| pdf_file := sample_file; bedrock_runtime := tt |}.

Definition sample_logged_world : world (unit * list request) :=
  {| pdf_file := sample_file; bedrock_runtime := (tt, []) |}.

Definition four_styles : list str :=
  [lit "concise"; lit "detailed"; lit "bullet-points"; lit "executive"].

(** ** Predicates and data of the further properties *)

(** The string does not end with a space. *)
Definition ends_clean (s : str) : bool := starts_clean (rev s).

(** Made of spaces only (the empty string included). *)
Definition blank (s : str) : Prop := Forall (fun c => c = ch " ") s.

(** A name the sanitizer has nothing to do on. *)
Definition clean_name (f : str) : Prop :=
  f <> [] /\ sanitized_str f /\ single_spaced f = true /\
  starts_clean f = true /\ ends_clean f = true.

(** The three placeholders. *)
Definition placeholders : list str := [ssn_redacted; card_redacted; email_redacted].

(** [[0-9]] *)
Definition ascii_digit (c : char) : bool := between "0" "9" c.

(** A number written [ddd-dd-dddd] in ASCII digits. *)
Definition ssn_shaped (n : str) : bool :=
  match n with
  | [a1; a2; a3; d1; b1; b2; d2; c1; c2; c3; c4] =>
      forallb ascii_digit [a1; a2; a3; b1; b2; c1; c2; c3; c4] &&
      eqc "-" d1 && eqc "-" d2
  | _ => false
  end.

(** Sixteen ASCII digits. *)
Definition card_shaped (n : str) : bool :=
  Nat.eqb (List.length n) 16 && forallb ascii_digit n.

Definition present (o : option pyval) : bool :=
  match o with Some _ => true | None => false end.

(** Whether the response has every field the task reads, in the form
    the task needs it. *)
Definition response_complete (t : task) (resp : pyval) : bool :=
  match dig resp text_path with
  | None => false
  | Some text =>
      match t with
      | Summarize _ | CustomPrompt _ =>
          present (dig resp (usage_path (lit "inputTokens"))) &&
          present (dig resp (usage_path (lit "outputTokens"))) &&
          present (dig resp [Key (lit "stopReason")])
      | Sentiment | Topics _ => true
      | QuestionAnswer _ g =>
          (if g then match text with VStr _ => true | _ => false end else true) &&
          present (dig resp (usage_path (lit "inputTokens"))) &&
          present (dig resp (usage_path (lit "outputTokens")))
      end
  end.

(** The names and formats of the document parts of a request. *)
Definition document_names (req : request) : list (str * str) :=
  flat_map (fun m =>
    flat_map (fun b => match b with Document n f _ => [(n, f)] | Text _ => [] end)
             (msg_content m)) (messages req).

(** A client that answers with an empty JSON object. *)
Definition empty_converse (c : unit) (req : request) : unit * outcome pyval :=
  (c, Return (VDict [])).

(** ** The application: [doc_summary_app.py] *)

(** Python's binding of positional arguments to parameters that may
    have a default; [None] is the [TypeError] of a missing or a
    superfluous argument. *)
Fixpoint bind_positional (params : list (str * option pyval)) (args : list pyval)
  : option (list (str * pyval)) :=
  match params with
  | [] => match args with [] => Some [] | _ :: _ => None end
  | (k, default) :: params' =>
      match args with
      | a :: args' => option_map (cons (k, a)) (bind_positional params' args')
      | [] =>
          match default with
          | Some d => option_map (cons (k, d)) (bind_positional params' [])
          | None => None
          end
      end
  end.

(** The parameters of [answer_questions_about_document] after
    [pdf_file]:
    [question, chat_history=None, model_id=DEFAULT_LLM_MODEL, use_guardrails=False]. *)
Definition answer_questions_parameters : list (str * option pyval) :=
  [(lit "question", None);
   (lit "chat_history", Some VNone);
   (lit "model_id", Some (VStr DEFAULT_LLM_MODEL));
   (lit "use_guardrails", Some (VBool false))].

(** Truth value of a Python value, as [if v:] takes it. *)
Definition py_truthy (v : pyval) : bool :=
  match v with
  | VNone => false
  | VBool b => b
  | VInt z => negb (Z.eqb z 0)
  | VStr s => truthy s
  | VList l => match l with [] => false | _ :: _ => true end
  | VDict d => match d with [] => false | _ :: _ => true end
  end.

(** A chat history entry, [{"question": q, "answer": a}]. *)
Definition chat_entry : Type := (str * pyval)%type.

(** U+274C and a space, the beginning of the application's error line. *)
Definition cross_mark : str := [10060%N; 32%N].

Section Application.
Context {U : UnicodeDB}.
Variable client : Type.
Variable converse : client -> request -> client * outcome pyval.
Variable subscript_error : pyval -> subscript -> str.
Variable not_a_string_error : pyval -> str.
(** [str(v)] for a value that is not a string. *)
Variable py_str : pyval -> str.

(** A call [lib.answer_questions_about_document(pdf_file, *args)] with
    positional arguments.  [None]: the arguments do not bind, or the
    question or the model id is not a string. *)
Definition call_answer_questions (args : list pyval)
  : option (M client pyval) :=
  match bind_positional answer_questions_parameters args with
  | Some env =>
      match lookup (lit "question") env, lookup (lit "model_id") env,
            lookup (lit "use_guardrails") env with
      | Some (VStr question), Some (VStr model_id), Some use_guardrails =>
          Some (answer_questions_about_document converse subscript_error
                  not_a_string_error question model_id (py_truthy use_guardrails))
      | _, _, _ => None
      end
  | None => None
  end.

(** What handling a submitted question leaves behind: the chat history
    and the error line shown, if any. *)
Definition handled : Type := (list chat_entry * option str)%type.

(** The handler of the chat input: [question] is what [st.chat_input]
    returned, [model_id] the model selected in the sidebar.  The
    widgets and [st.rerun()] are not part of the embedding. *)
Definition handle_question (question : option str) (model_id : str)
           (chat_history : list chat_entry)
  : option (world client -> world client * handled) :=
  match question with
  | Some q =>
      if truthy q then
        option_map
          (fun call w =>
             match call w with
             | (w', Return result) =>
                 match subscript_value result (Key (lit "answer")) with
                 | Some answer => (w', (chat_history ++ [(q, answer)], None))
                 | None =>
                     (w', (chat_history,
                           Some (cross_mark ++ lit "Error: " ++
                                 subscript_error result (Key (lit "answer")))))
                 end
             | (w', Raise e) =>
                 (w', (chat_history, Some (cross_mark ++ lit "Error: " ++ exn_text e)))
             end)
          (call_answer_questions [VStr q; VStr model_id])
      else Some (fun w => (w, (chat_history, None)))
  | None => Some (fun w => (w, (chat_history, None)))
  end.

(** [f"{v}"] *)
Definition format_value (v : pyval) : str :=
  match v with VStr s => s | _ => py_str v end.

(** [enumerate(l, start)] *)
Fixpoint enumerate (A : Type) (start : Z) (l : list A) : list (Z * A) :=
  match l with
  | [] => []
  | x :: l' => (start, x) :: enumerate (start + 1) l'
  end.

(** One round of the export loop. *)
Definition export_step (export_text : str) (ic : Z * chat_entry) : str :=
  let '(idx, chat) := ic in
  let export_text :=
    export_text ++ (lit "## Question " ++ str_of_int idx ++ newline ++
                    fst chat ++ newline ++ newline) in
  let export_text :=
    export_text ++ (lit "## Answer " ++ str_of_int idx ++ newline ++
                    format_value (snd chat) ++ newline ++ newline) in
  export_text ++ (lit "---" ++ newline ++ newline).

(** The text behind the [Export Chat] button. *)
Definition export_chat (chat_history : list chat_entry) : str :=
  fold_left export_step (enumerate 1 chat_history)
            (lit "# Document Q&A Session" ++ newline ++ newline).

End Application.

(** ** Tactics *)

Import Re.

(** Turn the character constants into numerals and the boolean tests
    into arithmetic. *)
Ltac ch_num :=
  repeat match goal with
  | |- context [ch ?a] =>
      let v := eval vm_compute in (ch a) in change (ch a) with v
  | H : context [ch ?a] |- _ =>
      let v := eval vm_compute in (ch a) in change (ch a) with v in H
  end.

Ltac class_arith H :=
  unfold sanitized_char, replace_disallowed, allowed, isspace, between, eqc in H;
  ch_num;
  rewrite ?orb_true_iff, ?andb_true_iff, ?N.leb_le, ?N.eqb_eq in H.

(** Try every way of cutting a literal needle in two. *)
Ltac each_split E tac :=
  match type of E with
  | _ = ?a ++ ?b =>
      let v := eval vm_compute in ssn_redacted in
      change ssn_redacted with v in E;
      repeat (destruct a as [|? a];
              [ cbn [app] in E; subst b; tac
              | cbn [app] in E; injection E as <- E ]);
      try (destruct a; [cbn in E; subst b; congruence | discriminate E])
  end.

Ltac no_match_here :=
  cbn [last_char prev_after rev app];
  lazy -[word_boundary hd_error];
  repeat match goal with
  | |- context [if ?c then _ else _] => destruct c
  end; discriminate.

(** Run a task up to its call of the client. *)
Ltac run_to_converse H :=
  unfold run_task, summarize_pdf_document, summarize_pdf_with_converse,
    analyze_document_sentiment, extract_key_topics,
    answer_questions_about_document, try_except, bind, file_seek0, file_read,
    file_name, call_converse;
  cbn [pdf_file bedrock_runtime read seek0 fst snd name content pos skipn];
  unfold task_request in H; cbn [task_prompt task_config] in H;
  rewrite H.

(** [each_split] for any literal needle. *)
Ltac each_split_of tag E tac :=
  match type of E with
  | _ = ?a ++ ?b =>
      let v := eval vm_compute in tag in
      change tag with v in E;
      repeat (destruct a as [|? a];
              [ cbn [app] in E; subst b; tac
              | cbn [app] in E; injection E as <- E ]);
      try (destruct a; [cbn in E; subst b; congruence | discriminate E])
  end.

(** * Theorems *)

(** ** Examples *)

Example sanitize_ex1 :
  sanitize_filename (Some (lit "my  report (v2).pdf")) = lit "my report (v2)_pdf".
Proof. reflexivity. Qed.

Example sanitize_ex2 :
  sanitize_filename (Some (lit "   ")) = lit "document.pdf".
Proof. reflexivity. Qed.

Example guardrails_ex1 :
  let r := @apply_guardrails basic_latin (lit "mail bob@example.com or 123-45-6789 now") in
  filtered_text r = lit "mail [EMAIL_REDACTED] or [SSN_REDACTED] now" /\
  redactions r = [lit "123-45-6789"; lit "bob@example.com"] /\
  action r = FILTERED.
Proof. vm_compute. repeat split. Qed.

Example guardrails_ex2 :
  let r := @apply_guardrails basic_latin (lit "card 4111111111111111, id 0123-45-6789") in
  filtered_text r = lit "card [CARD_REDACTED], id 0123-45-6789" /\
  redactions r = [lit "4111111111111111"].
Proof. vm_compute. repeat split. Qed.

(** ** The [re] fragment: general facts *)

Module ReFacts.

Lemma run_le cls hi s : run cls hi s <= List.length s.
Proof.
  destruct hi as [h|]; cbn [run].
  - revert s; induction h as [|h IH]; intros [|c s]; cbn [run_upto List.length];
      try lia.
    destruct (cls c); [specialize (IH s)|]; lia.
  - induction s as [|c s IH]; cbn [run_all List.length]; [lia|].
    destruct (cls c); lia.
Qed.

(** The characters a run covers are all in the class. *)
Lemma run_Forall cls hi s : Forall (fun c => cls c = true) (firstn (run cls hi s) s).
Proof.
  destruct hi as [h|]; cbn [run].
  - revert s; induction h as [|h IH]; intros [|c s]; cbn [run_upto firstn];
      try constructor.
    destruct (cls c) eqn:E; cbn [firstn]; constructor; auto.
  - induction s as [|c s IH]; cbn [run_all firstn]; [constructor|].
    destruct (cls c) eqn:E; cbn [firstn]; constructor; auto.
Qed.

Lemma backtrack_bounds k prev s lo n m :
  backtrack k prev s lo n = Some m ->
  exists i j, i <= n /\ lo <= i /\ m = i + j /\
              k (prev_after prev (firstn i s)) (skipn i s) = Some j.
Proof.
  induction n as [|n IH]; simpl.
  - destruct (Nat.ltb 0 lo) eqn:E; [discriminate|].
    apply Nat.ltb_ge in E.
    destruct (k _ _) as [j|] eqn:K; [|discriminate].
    intros [= <-]. exists 0, j. repeat split; auto.
  - destruct (Nat.ltb (S n) lo) eqn:E; [discriminate|].
    apply Nat.ltb_ge in E.
    destruct (k _ _) as [j|] eqn:K.
    + intros [= <-]. exists (S n), j. repeat split; auto.
    + intros H. destruct (IH H) as (i & j & Hi & Hlo & -> & Hk).
      exists i, j. repeat split; auto.
Qed.

(** A match never runs past the end of the text. *)
Lemma match_here_le p : forall prev s n,
  match_here p prev s = Some n -> n <= List.length s.
Proof.
  induction p as [|[cls lo hi|a] p IH]; intros prev s n; simpl.
  - intros [= <-]. lia.
  - intros H. apply backtrack_bounds in H.
    destruct H as (i & j & Hi & _ & -> & Hk).
    apply IH in Hk. rewrite length_skipn in Hk.
    pose proof (run_le cls hi s). lia.
  - destruct (a prev (hd_error s)); [apply IH|discriminate].
Qed.

(** A match consumes at least the lower bounds of its classes. *)
Lemma match_here_min p : forall prev s n,
  match_here p prev s = Some n -> min_length p <= n.
Proof.
  induction p as [|[cls lo hi|a] p IH]; intros prev s n; cbn [match_here min_length].
  - intros [= <-]. lia.
  - intros H. apply backtrack_bounds in H.
    destruct H as (i & j & _ & Hlo & -> & Hk).
    apply IH in Hk. lia.
  - destruct (a prev (hd_error s)); [apply IH|discriminate].
Qed.

(** A pattern with a class that must be consumed has no empty match, so
    the scan loses nothing by not counting a zero-length result. *)
Lemma match_here_nonempty p prev s :
  0 < min_length p -> match_here p prev s <> Some 0.
Proof. intros H E. apply match_here_min in E. lia. Qed.

End ReFacts.

(** Every pattern of the library consumes at least one character. *)
Lemma library_patterns_consume (U : UnicodeDB) :
  Forall (fun p => 0 < Re.min_length p)
         [re_invalid; re_spaces; re_ssn; re_card; re_email].
Proof. repeat constructor; cbn; lia. Qed.

(** ** The sanitizer: the patterns as list functions *)

Lemma eqc_true a c : eqc a c = true <-> c = ch a.
Proof. unfold eqc. apply N.eqb_eq. Qed.

Lemma backtrack_done prev s lo n :
  Re.backtrack (fun _ _ => Some 0) prev s lo n =
  if Nat.ltb n lo then None else Some n.
Proof.
  destruct n; simpl; destruct (Nat.ltb _ lo); auto; f_equal; lia.
Qed.

Lemma match_invalid prev c s :
  Re.match_here re_invalid prev (c :: s) = if allowed c then None else Some 1.
Proof.
  unfold re_invalid. cbn [Re.match_here Re.run Re.run_upto].
  destruct (allowed c); reflexivity.
Qed.

Lemma sub_invalid_map s : forall prev,
  Re.sub_from re_invalid (lit "_") 0 prev s = map replace_disallowed s.
Proof.
  induction s as [|c s IH]; intros prev; [reflexivity|].
  cbn [Re.sub_from]. rewrite match_invalid. unfold replace_disallowed at 1.
  cbn [map]. fold (replace_disallowed c).
  unfold replace_disallowed.
  destruct (allowed c); rewrite IH; reflexivity.
Qed.

Lemma match_spaces prev s :
  Re.match_here re_spaces prev s =
  if Nat.ltb (Re.run_all (eqc " ") s) 2 then None else Some (Re.run_all (eqc " ") s).
Proof. unfold re_spaces. simpl. apply backtrack_done. Qed.

Lemma sub_spaces_aux s :
  (forall prev, Re.sub_from re_spaces (lit " ") 0 prev s = collapse_spaces s) /\
  (forall prev j, Re.run_all (eqc " ") s = S j ->
     ch " " :: Re.sub_from re_spaces (lit " ") (S j) prev s = collapse_spaces s).
Proof.
  induction s as [|c s [IHA IHB]]; [split; [reflexivity|discriminate]|].
  assert (B : forall prev j, Re.run_all (eqc " ") (c :: s) = S j ->
     ch " " :: Re.sub_from re_spaces (lit " ") (S j) prev (c :: s) = collapse_spaces (c :: s)).
  { intros prev j. cbn [Re.run_all Re.sub_from].
    destruct (eqc " " c) eqn:Ec; [|discriminate].
    apply eqc_true in Ec. subst c. intros [= Hj].
    destruct j as [|j].
    - rewrite IHA. destruct s as [|d s]; [reflexivity|].
      cbn [collapse_spaces]. cbn [Re.run_all] in Hj.
      destruct (eqc " " d); [discriminate|]. rewrite andb_false_r. reflexivity.
    - rewrite (IHB _ _ Hj). destruct s as [|d s]; [discriminate|].
      cbn [Re.run_all] in Hj. destruct (eqc " " d) eqn:Ed; [|discriminate].
      cbn [collapse_spaces]. rewrite Ed. reflexivity. }
  split; [|exact B].
  intros prev. cbn [Re.sub_from]. rewrite match_spaces.
  destruct (Re.run_all (eqc " ") (c :: s)) as [|[|j]] eqn:R; cbn [Nat.ltb Nat.leb].
  - rewrite IHA. cbn [Re.run_all] in R. destruct (eqc " " c) eqn:Ec; [discriminate|].
    destruct s as [|d s]; cbn [collapse_spaces]; [reflexivity|]. rewrite Ec. reflexivity.
  - rewrite IHA. cbn [Re.run_all] in R. destruct (eqc " " c) eqn:Ec; [|discriminate].
    injection R as R.
    destruct s as [|d s]; cbn [collapse_spaces]; [reflexivity|].
    cbn [Re.run_all] in R. destruct (eqc " " d) eqn:Ed; [discriminate|].
    rewrite andb_false_r. reflexivity.
  - specialize (B prev (S j) eq_refl). cbn [Re.sub_from] in B. exact B.
Qed.

(** ** The sanitizer: character classes *)

Lemma sanitized_range c : sanitized_char c = true -> (32 <= c <= 122)%N.
Proof. intros H. class_arith H. lia. Qed.

Lemma isspace_sanitized c : sanitized_char c = true -> isspace c = eqc " " c.
Proof.
  intros H. apply sanitized_range in H.
  destruct (eqc " " c) eqn:E.
  - apply eqc_true in E. subst c. reflexivity.
  - unfold eqc in E. apply N.eqb_neq in E. revert E. ch_num. intros E.
    apply not_true_iff_false. intros S. unfold isspace in S.
    rewrite ?orb_true_iff, ?andb_true_iff, ?N.leb_le, ?N.eqb_eq in S. lia.
Qed.

Lemma replace_disallowed_sanitized c : sanitized_char (replace_disallowed c) = true.
Proof.
  unfold replace_disallowed, sanitized_char.
  destruct (allowed c) eqn:E; [rewrite E; reflexivity|].
  reflexivity.
Qed.

Lemma replace_disallowed_fix c : sanitized_char c = true -> replace_disallowed c = c.
Proof.
  unfold sanitized_char, replace_disallowed. destruct (allowed c); [reflexivity|].
  cbn [orb]. intros H. apply eqc_true in H. symmetry; exact H.
Qed.

(** *** Trimming *)

Lemma lstrip_trim_left s :
  Forall (fun c => sanitized_char c = true) s -> lstrip s = trim_left s.
Proof.
  induction 1 as [|c s Hc Hs IH]; [reflexivity|].
  cbn [lstrip trim_left]. rewrite (isspace_sanitized _ Hc), IH. reflexivity.
Qed.

Lemma trim_left_suffix s : exists l, s = l ++ trim_left s.
Proof.
  induction s as [|c s [l IH]]; [exists []; reflexivity|].
  cbn [trim_left]. destruct (eqc " " c).
  - exists (c :: l). cbn. f_equal. exact IH.
  - exists []. reflexivity.
Qed.

Lemma trim_left_Forall (P : char -> Prop) s : Forall P s -> Forall P (trim_left s).
Proof.
  intros H. destruct (trim_left_suffix s) as [l E]. rewrite E in H.
  apply Forall_app in H. tauto.
Qed.

Lemma strip_trim_spaces s :
  Forall (fun c => sanitized_char c = true) s -> strip s = trim_spaces s.
Proof.
  intros H. unfold strip, rstrip, trim_spaces.
  rewrite (lstrip_trim_left H). f_equal.
  apply lstrip_trim_left. apply Forall_rev. apply trim_left_Forall. exact H.
Qed.

Lemma trim_spaces_sub s : exists l r, s = l ++ trim_spaces s ++ r.
Proof.
  unfold trim_spaces.
  destruct (trim_left_suffix s) as [l El].
  destruct (trim_left_suffix (rev (trim_left s))) as [r Er].
  exists l, (rev r).
  rewrite <- rev_app_distr, <- Er, rev_involutive. exact El.
Qed.

Lemma trim_left_clean s : starts_clean (trim_left s) = true.
Proof.
  induction s as [|c s IH]; [reflexivity|].
  cbn [trim_left]. destruct (eqc " " c) eqn:E; [exact IH|]. cbn. rewrite E. reflexivity.
Qed.

Lemma trim_left_fix s : starts_clean s = true -> trim_left s = s.
Proof.
  destruct s as [|c s]; [reflexivity|]. cbn.
  destruct (eqc " " c); [discriminate|reflexivity].
Qed.

Lemma starts_clean_prefix a b : starts_clean (a ++ b) = true -> starts_clean a = true.
Proof. destruct a; auto. Qed.

Lemma trim_spaces_fix s : trim_spaces (trim_spaces s) = trim_spaces s.
Proof.
  unfold trim_spaces.
  set (m := trim_left s).
  set (r := rev (trim_left (rev m))).
  assert (Hr : trim_left r = r).
  { apply trim_left_fix.
    destruct (trim_left_suffix (rev m)) as [l E].
    assert (Em : m = r ++ rev l).
    { unfold r. rewrite <- rev_app_distr, <- E, rev_involutive. reflexivity. }
    apply starts_clean_prefix with (b := rev l). rewrite <- Em.
    apply trim_left_clean. }
  rewrite Hr. unfold r at 1. rewrite rev_involutive.
  rewrite (trim_left_fix _ (trim_left_clean _)). reflexivity.
Qed.

(** *** Runs of spaces *)

Lemma collapse_head d s : exists t, collapse_spaces (d :: s) = d :: t.
Proof.
  revert d; induction s as [|e s IH]; intros d; [exists []; reflexivity|].
  cbn [collapse_spaces]. destruct (eqc " " d && eqc " " e) eqn:E.
  - apply andb_true_iff in E. destruct E as [Ed Ee].
    apply eqc_true in Ed, Ee. subst d e. apply IH.
  - eexists. reflexivity.
Qed.

Lemma collapse_single_spaced s : single_spaced (collapse_spaces s) = true.
Proof.
  induction s as [|c s IH]; [reflexivity|].
  destruct s as [|d s]; [reflexivity|].
  change (collapse_spaces (c :: d :: s)) with
    (if eqc " " c && eqc " " d then collapse_spaces (d :: s)
     else c :: collapse_spaces (d :: s)).
  destruct (eqc " " c && eqc " " d) eqn:E; [exact IH|].
  destruct (collapse_head d s) as [t Ht]. rewrite Ht in *.
  cbn [single_spaced]. rewrite E. exact IH.
Qed.

Lemma collapse_fix s : single_spaced s = true -> collapse_spaces s = s.
Proof.
  induction s as [|c s IH]; [reflexivity|].
  destruct s as [|d s]; [reflexivity|].
  cbn [single_spaced]. intros H. apply andb_true_iff in H. destruct H as [H1 H2].
  apply negb_true_iff in H1.
  change (collapse_spaces (c :: d :: s)) with
    (if eqc " " c && eqc " " d then collapse_spaces (d :: s)
     else c :: collapse_spaces (d :: s)).
  rewrite H1, (IH H2). reflexivity.
Qed.

Lemma single_spaced_app a b :
  single_spaced (a ++ b) = true -> single_spaced a = true /\ single_spaced b = true.
Proof.
  induction a as [|c a IH]; [auto|].
  destruct a as [|d a].
  - cbn [app]. destruct b as [|e b]; [auto|].
    cbn [single_spaced]. intros H. apply andb_true_iff in H. tauto.
  - change (single_spaced ((c :: d :: a) ++ b)) with
      (negb (eqc " " c && eqc " " d) && single_spaced ((d :: a) ++ b)).
    intros H. apply andb_true_iff in H. destruct H as [H1 H2].
    destruct (IH H2) as [Ha Hb]. split; [|exact Hb].
    cbn [single_spaced]. rewrite H1. exact Ha.
Qed.

Lemma collapse_Forall (P : char -> Prop) s : Forall P s -> Forall P (collapse_spaces s).
Proof.
  induction s as [|c s IH]; [auto|]. intros H. inversion H as [|? ? Hc Hs]; subst.
  destruct s as [|d s]; [repeat constructor; exact Hc|].
  change (collapse_spaces (c :: d :: s)) with
    (if eqc " " c && eqc " " d then collapse_spaces (d :: s)
     else c :: collapse_spaces (d :: s)).
  destruct (eqc " " c && eqc " " d); [auto|constructor; auto].
Qed.

(** *** Substrings *)

Lemma starts_with_prefix p s : starts_with p s = true <-> exists r, s = p ++ r.
Proof.
  revert s; induction p as [|a p IH]; intros s; cbn [starts_with].
  - split; [intros _; exists s; reflexivity|reflexivity].
  - destruct s as [|c s].
    + split; [discriminate|intros [r H]; discriminate].
    + rewrite andb_true_iff, N.eqb_eq, IH. split.
      * intros [-> [r ->]]. exists r. reflexivity.
      * intros [r H]. injection H as -> ->. split; [reflexivity|exists r; reflexivity].
Qed.

Lemma contains_occurs needle hay : contains needle hay = true <-> occurs needle hay.
Proof.
  unfold occurs. induction hay as [|c hay IH]; cbn [contains].
  - rewrite orb_false_r, starts_with_prefix. split.
    + intros [r H]. exists [], r. exact H.
    + intros (l & r & H). destruct l as [|x l]; [exists r; exact H|discriminate].
  - rewrite orb_true_iff, starts_with_prefix, IH. split.
    + intros [[r H]|(l & r & H)].
      * exists [], r. exact H.
      * exists (c :: l), r. rewrite H. reflexivity.
    + intros (l & r & H). destruct l as [|x l].
      * left. exists r. exact H.
      * right. injection H as _ H. exists l, r. exact H.
Qed.

Lemma not_contains needle hay : contains needle hay = false <-> ~ occurs needle hay.
Proof.
  rewrite <- contains_occurs. destruct (contains needle hay); split;
    try discriminate; auto.
  intros H. exfalso. apply H. reflexivity.
Qed.

Lemma single_spaced_no_double s :
  single_spaced s = true -> contains (lit "  ") s = false.
Proof.
  intros H. apply not_contains. intros (l & r & E). subst s.
  apply single_spaced_app in H. destruct H as [_ H].
  apply single_spaced_app in H. destruct H as [H _]. discriminate.
Qed.

(** *** The sanitizer *)

Lemma map_replace_sanitized f : sanitized_str (map replace_disallowed f).
Proof.
  induction f; constructor; auto using replace_disallowed_sanitized.
Qed.

Lemma map_replace_fix s : sanitized_str s -> map replace_disallowed s = s.
Proof.
  induction 1 as [|c s Hc _ IH]; [reflexivity|].
  cbn [map]. rewrite IH, (replace_disallowed_fix _ Hc). reflexivity.
Qed.

Lemma trim_spaces_Forall (P : char -> Prop) s : Forall P s -> Forall P (trim_spaces s).
Proof.
  intros H. destruct (trim_spaces_sub s) as (l & r & E). rewrite E in H.
  apply Forall_app in H. destruct H as [_ H]. apply Forall_app in H. tauto.
Qed.

Lemma trim_spaces_single_spaced s :
  single_spaced s = true -> single_spaced (trim_spaces s) = true.
Proof.
  intros H. destruct (trim_spaces_sub s) as (l & r & E). rewrite E in H.
  apply single_spaced_app in H. destruct H as [_ H].
  apply single_spaced_app in H. tauto.
Qed.

Lemma cleaned_sanitized f : sanitized_str (cleaned f).
Proof.
  apply trim_spaces_Forall, collapse_Forall, map_replace_sanitized.
Qed.

Lemma cleaned_single_spaced f : single_spaced (cleaned f) = true.
Proof. apply trim_spaces_single_spaced, collapse_single_spaced. Qed.

Lemma cleaned_fix f : cleaned (cleaned f) = cleaned f.
Proof.
  unfold cleaned at 1.
  rewrite (map_replace_fix (cleaned_sanitized f)).
  rewrite (collapse_fix _ (cleaned_single_spaced f)).
  apply trim_spaces_fix.
Qed.

Lemma sanitize_filename_cleaned f :
  sanitize_filename (Some f) =
  match cleaned f with [] => default_name | r => r end.
Proof.
  unfold sanitize_filename. destruct f as [|c f]; [reflexivity|].
  cbn [truthy negb]. unfold Re.sub.
  rewrite sub_invalid_map, (proj1 (sub_spaces_aux _)).
  rewrite strip_trim_spaces
    by (apply collapse_Forall, map_replace_sanitized).
  fold (cleaned (c :: f)). destruct (cleaned (c :: f)); reflexivity.
Qed.

(** C6. [sanitize_filename] is the function the specification words:
    every disallowed character becomes [_], every run of two or more
    spaces becomes one space, leading and trailing spaces are trimmed, and
    the result is ["document.pdf"] when the input is [None], empty, or
    empty after trimming.  It is a total function: no input raises. *)
Theorem sanitize_filename_refines (filename : option str) :
  sanitize_filename filename = sanitize_spec filename.
Proof.
  destruct filename as [f|]; [|reflexivity].
  rewrite sanitize_filename_cleaned. reflexivity.
Qed.

Lemma default_name_not_sanitized : ~ sanitized_str default_name.
Proof.
  intros H. unfold sanitized_str in H. rewrite Forall_forall in H.
  specialize (H (ch ".")). discriminate H.
  vm_compute. tauto.
Qed.

(** C10, amended.  Sanitizing twice is the same as sanitizing once for
    every filename whose sanitized form is not the fallback
    ["document.pdf"]. *)
Theorem sanitize_filename_idempotent_off_default (filename : option str) :
  sanitize_filename filename <> default_name ->
  sanitize_filename (Some (sanitize_filename filename)) = sanitize_filename filename.
Proof.
  destruct filename as [f|]; [|intros H; exfalso; apply H; reflexivity].
  rewrite !sanitize_filename_cleaned.
  destruct (cleaned f) as [|c r] eqn:E; [intros H; exfalso; apply H; reflexivity|].
  intros _. rewrite <- E, cleaned_fix, E. reflexivity.
Qed.

(** ** Scanning and substitution *)

Lemma last_char_cons prev c l : last_char prev (c :: l) = last_char (Some c) l.
Proof.
  unfold last_char, prev_after. cbn [rev].
  destruct (rev l) as [|x t] eqn:E; reflexivity.
Qed.

Lemma last_char_app prev a b : last_char prev (a ++ b) = last_char (last_char prev a) b.
Proof.
  revert prev; induction a as [|c a IH]; intros prev; [reflexivity|].
  cbn [app]. rewrite !last_char_cons. apply IH.
Qed.

Lemma occurs_cons n c h : occurs n h -> occurs n (c :: h).
Proof. intros (l & r & ->). exists (c :: l), r. reflexivity. Qed.

Lemma occurs_app_r n a h : occurs n h -> occurs n (a ++ h).
Proof. intros (l & r & ->). exists (a ++ l), r. rewrite app_assoc. reflexivity. Qed.

Lemma occurs_app_l n h : occurs n (n ++ h).
Proof. exists [], h. reflexivity. Qed.

Lemma findall_search p s : forall prev,
  findall_from p 0 prev s = [] <-> search_from p prev s = false.
Proof.
  induction s as [|c s IH]; intros prev; cbn [findall_from search_from]; [tauto|].
  destruct (match_here p prev (c :: s)) as [[|n]|]; try apply IH.
  split; discriminate.
Qed.

(** A text in which the pattern matches somewhere has the replacement
    in its substituted form. *)
Lemma sub_found p repl s : forall prev,
  search_from p prev s = true -> occurs repl (sub_from p repl 0 prev s).
Proof.
  induction s as [|c s IH]; intros prev; cbn [sub_from search_from]; [discriminate|].
  destruct (match_here p prev (c :: s)) as [[|n]|]; intros H;
    try (apply occurs_cons, IH, H).
  apply occurs_app_l.
Qed.

Lemma Forall_firstn (A : Type) (P : A -> Prop) n (l : list A) :
  Forall P l -> Forall P (firstn n l).
Proof.
  intros H; revert n; induction H; intros [|n]; cbn [firstn]; constructor; auto.
Qed.

(** The consumed characters all belong to classes of the pattern. *)
Lemma match_here_classes p : forall prev s n,
  match_here p prev s = Some n ->
  Forall (fun c => in_classes p c = true) (firstn n s).
Proof.
  induction p as [|[cls lo hi|a] p IH]; intros prev s n; cbn [match_here].
  - intros [= <-]. constructor.
  - intros H. apply ReFacts.backtrack_bounds in H.
    destruct H as (i & j & Hi & _ & -> & Hk).
    rewrite <- (firstn_skipn i s) at 1.
    assert (Li : List.length (firstn i s) = i).
    { apply firstn_length_le. pose proof (ReFacts.run_le cls hi s). lia. }
    rewrite firstn_app, Li, Nat.add_comm, Nat.add_sub.
    rewrite firstn_firstn, Nat.min_r by lia.
    apply Forall_app. split.
    + pose proof (ReFacts.run_Forall cls hi s) as HF.
      rewrite <- (Nat.min_l _ _ Hi), <- firstn_firstn.
      apply Forall_firstn.
      eapply Forall_impl; [|exact HF].
      intros x Hx. unfold in_classes. cbn [existsb]. rewrite Hx. reflexivity.
    + eapply Forall_impl; [|apply (IH _ _ _ Hk)].
      intros x Hx. unfold in_classes in *. cbn [existsb]. rewrite Hx. apply orb_true_r.
  - destruct (a prev (hd_error s)); [|discriminate].
    intros H. eapply Forall_impl; [|apply (IH _ _ _ H)].
    intros x Hx. exact Hx.
Qed.

Lemma occurs_cons_inv n c h : occurs n (c :: h) -> prefix n (c :: h) \/ occurs n h.
Proof.
  intros (l & r & E). destruct l as [|x l].
  - left. exists r. exact E.
  - right. injection E as _ E. exists l, r. exact E.
Qed.

Lemma disjoint_tail x a b : disjoint a (x :: b) -> disjoint a b.
Proof. intros H y Ha Hb. apply (H y Ha). right. exact Hb. Qed.

Lemma disjoint_tail_l x a b : disjoint (x :: a) b -> disjoint a b.
Proof. intros H y Ha Hb. apply (H y); [right; exact Ha|exact Hb]. Qed.

Lemma occurs_app_disjoint n a b :
  n <> [] -> disjoint n a -> occurs n (a ++ b) -> occurs n b.
Proof.
  intros Hn. induction a as [|x a IH]; intros Hd H; [exact H|].
  cbn [app] in H. apply occurs_cons_inv in H. destruct H as [[t E]|H].
  - destruct n as [|y n]; [contradiction|]. injection E as <- _.
    exfalso. apply (Hd x); left; reflexivity.
  - apply IH; [eapply disjoint_tail; exact Hd|exact H].
Qed.

Section Substitution.

Variable p : regex.
Variable repl : str.

Section Keeps.
(** A needle that no match can start in or run into survives the
    substitution. *)
Variable needle : str.
Hypothesis Hstart : forall a b prev r n,
  needle = a ++ b -> b <> [] ->
  match_here p (last_char prev a) (b ++ r) <> Some (S n).
Hypothesis Hhead : exists h t, needle = h :: t /\ in_classes p h = false.

Lemma sub_copies b : forall a prev r,
  needle = a ++ b ->
  sub_from p repl 0 (last_char prev a) (b ++ r) =
  b ++ sub_from p repl 0 (last_char prev needle) r.
Proof.
  induction b as [|c b IH]; intros a prev r E.
  - rewrite E, app_nil_r. reflexivity.
  - cbn [app sub_from].
    pose proof (@Hstart a (c :: b) prev r) as Hs.
    destruct (match_here p (last_char prev a) (c :: b ++ r)) as [[|n]|] eqn:M.
    + specialize (IH (a ++ [c]) prev r).
      rewrite last_char_app in IH. cbn in IH. rewrite IH; [reflexivity|].
      rewrite <- app_assoc. exact E.
    + exfalso. apply (Hs n E); [discriminate|exact M].
    + specialize (IH (a ++ [c]) prev r).
      rewrite last_char_app in IH. cbn in IH. rewrite IH; [reflexivity|].
      rewrite <- app_assoc. exact E.
Qed.

Lemma sub_keeps r l : forall skip prev,
  skip <= List.length l ->
  occurs needle (sub_from p repl skip prev (l ++ needle ++ r)).
Proof.
  induction l as [|c l IH]; intros skip prev Hk.
  - assert (skip = 0) as -> by (cbn in Hk; lia).
    cbn [app]. pose proof (@sub_copies needle [] prev r eq_refl) as C.
    change (last_char prev []) with prev in C. rewrite C. apply occurs_app_l.
  - cbn [app sub_from]. destruct skip as [|k].
    + destruct (match_here p prev (c :: l ++ needle ++ r)) as [[|n]|] eqn:M;
        try (apply occurs_cons, IH; lia).
      apply occurs_app_r, IH.
      destruct (Nat.le_gt_cases n (List.length l)) as [L|L]; [exact L|exfalso].
      apply match_here_classes in M.
      destruct Hhead as (h & t & Eh & Hh).
      rewrite Eh in M.
      change (c :: l ++ (h :: t) ++ r) with ((c :: l) ++ h :: t ++ r) in M.
      rewrite firstn_app, firstn_all2 in M by (cbn [List.length]; lia).
      apply Forall_app in M. destruct M as [_ M].
      cbn [List.length] in M.
      destruct (S n - S (List.length l)) as [|m] eqn:Em; [lia|].
      cbn [firstn] in M. inversion M as [|? ? Hx _]; subst. congruence.
    + apply IH. cbn in Hk. lia.
Qed.

End Keeps.

Section NoNew.
(** A needle that shares no character with the replacement occurs in
    the result only where it stood, unmatched, in the text. *)
Hypothesis repl_nonempty : repl <> [].

Lemma sub_prefix_inv s : forall needle prev,
  disjoint needle repl ->
  prefix needle (sub_from p repl 0 prev s) ->
  prefix needle s /\
  (needle <> [] -> forall n, match_here p prev s <> Some (S n)).
Proof.
  induction s as [|c s IH]; intros needle prev Hd [t E].
  - cbn in E. destruct needle; [|discriminate].
    split; [exists []; reflexivity|intros H; contradiction].
  - destruct needle as [|x needle].
    { split; [exists (c :: s); reflexivity|intros H; contradiction]. }
    cbn [sub_from] in E.
    destruct (match_here p prev (c :: s)) as [[|n]|] eqn:M.
    + injection E as <- E.
      destruct (IH needle (Some c) (disjoint_tail_l Hd)) as [[u Hu] _];
        [exists t; exact E|].
      split; [exists u; rewrite Hu; reflexivity|intros _ n; discriminate].
    + exfalso. destruct repl as [|r0 repl']; [contradiction|].
      injection E as <- _. apply (Hd r0); left; reflexivity.
    + injection E as <- E.
      destruct (IH needle (Some c) (disjoint_tail_l Hd)) as [[u Hu] _];
        [exists t; exact E|].
      split; [exists u; rewrite Hu; reflexivity|intros _ n; discriminate].
Qed.

Lemma sub_occurs_unmatched needle :
  needle <> [] -> disjoint needle repl ->
  forall s skip prev,
    occurs needle (sub_from p repl skip prev s) ->
    exists l r, s = l ++ needle ++ r /\
                forall n, match_here p (last_char prev l) (needle ++ r) <> Some (S n).
Proof.
  intros Hn Hd. induction s as [|c s IH]; intros skip prev H.
  - cbn in H. destruct H as (l & r & E). exfalso.
    destruct l; [destruct needle; [contradiction|discriminate]|discriminate].
  - assert (Tail : forall k, occurs needle (sub_from p repl k (Some c) s) ->
      exists l r, c :: s = l ++ needle ++ r /\
        forall n, match_here p (last_char prev l) (needle ++ r) <> Some (S n)).
    { intros k Hk. destruct (IH _ _ Hk) as (l & r & E & Hm).
      exists (c :: l), r. rewrite last_char_cons. split; [rewrite E; reflexivity|exact Hm]. }
    cbn [sub_from] in H. destruct skip as [|k]; [|apply (Tail _ H)].
    destruct (match_here p prev (c :: s)) as [[|n]|] eqn:M.
    + apply occurs_cons_inv in H. destruct H as [H|H]; [|apply (Tail _ H)].
      destruct needle as [|x needle]; [contradiction|].
      destruct H as [t E]. injection E as <- E.
      destruct (@sub_prefix_inv s needle (Some c) (disjoint_tail_l Hd)) as [[u Hu] _];
        [exists t; exact E|].
      exists [], u. split; [rewrite Hu; reflexivity|].
      cbn [app last_char prev_after rev]. rewrite <- Hu, M. discriminate.
    + apply occurs_app_disjoint in H; auto. apply (Tail _ H).
    + apply occurs_cons_inv in H. destruct H as [H|H]; [|apply (Tail _ H)].
      destruct needle as [|x needle]; [contradiction|].
      destruct H as [t E]. injection E as <- E.
      destruct (@sub_prefix_inv s needle (Some c) (disjoint_tail_l Hd)) as [[u Hu] _];
        [exists t; exact E|].
      exists [], u. split; [rewrite Hu; reflexivity|].
      cbn [app last_char prev_after rev]. rewrite <- Hu, M. discriminate.
Qed.

Lemma sub_no_new needle s :
  needle <> [] -> disjoint needle repl ->
  occurs needle (sub p repl s) -> occurs needle s.
Proof.
  intros Hn Hd H. destruct (sub_occurs_unmatched Hn Hd _ _ _ H) as (l & r & E & _).
  exists l, r. exact E.
Qed.

End NoNew.

End Substitution.

(** ** The guardrail patterns *)

Section SsnMatch.
Context {U : UnicodeDB}.

Lemma match_ssn_delimited prev r :
  is_word prev = false -> is_word (hd_error r) = false ->
  match_here re_ssn prev (raw_ssn ++ r) = Some 11.
Proof.
  intros Hp Hr. unfold re_ssn, wb.
  cbn [match_here]. unfold word_boundary at 1.
  rewrite Hp.
  change (is_word (hd_error (raw_ssn ++ r))) with true. cbn [xorb].
  lazy -[word_boundary hd_error].
  unfold word_boundary. unfold char in *. rewrite Hr. reflexivity.
Qed.

Lemma search_here p prev s n :
  match_here p prev s = Some (S n) -> search_from p prev s = true.
Proof.
  destruct s as [|c s]; intros H.
  - apply ReFacts.match_here_le in H. cbn in H. lia.
  - cbn [search_from]. rewrite H. reflexivity.
Qed.

Lemma search_ssn_delimited r l : forall prev,
  is_word (last_char prev l) = false -> is_word (hd_error r) = false ->
  search_from re_ssn prev (l ++ raw_ssn ++ r) = true.
Proof.
  induction l as [|c l IH]; intros prev Hp Hr.
  - eapply search_here. apply match_ssn_delimited; assumption.
  - cbn [app search_from]. rewrite last_char_cons in Hp.
    destruct (match_here re_ssn prev (c :: l ++ raw_ssn ++ r)) as [[|n]|];
      try reflexivity; apply IH; assumption.
Qed.

Lemma sub_no_match p repl s : forall prev,
  search_from p prev s = false -> sub_from p repl 0 prev s = s.
Proof.
  induction s as [|c s IH]; intros prev; cbn [search_from sub_from]; [reflexivity|].
  destruct (match_here p prev (c :: s)) as [[|n]|]; try discriminate;
    intros H; rewrite (IH _ H); reflexivity.
Qed.

Lemma guard_step_text text reds p repl :
  fst (guard_step (text, reds) (p, repl)) = sub p repl text.
Proof.
  unfold guard_step. destruct (findall p text) eqn:F; [|reflexivity].
  cbn [fst]. symmetry. apply sub_no_match. apply findall_search. exact F.
Qed.

Lemma guard_step_reds text reds p repl :
  snd (guard_step (text, reds) (p, repl)) = reds ++ findall p text.
Proof.
  unfold guard_step. destruct (findall p text) eqn:F; [|reflexivity].
  cbn [snd]. rewrite app_nil_r. reflexivity.
Qed.

Lemma guard_step_eq st p repl :
  guard_step st (p, repl) = (sub p repl (fst st), snd st ++ findall p (fst st)).
Proof.
  destruct st as [text reds].
  rewrite (surjective_pairing (guard_step _ _)), guard_step_text, guard_step_reds.
  reflexivity.
Qed.

Lemma apply_guardrails_passes t :
  filtered_text (apply_guardrails t) = pass_email t /\
  redactions (apply_guardrails t) =
    findall re_ssn t ++ findall re_card (pass_ssn t) ++ findall re_email (pass_card t) /\
  action (apply_guardrails t) =
    match redactions (apply_guardrails t) with [] => ALLOWED | _ :: _ => FILTERED end.
Proof.
  unfold apply_guardrails, sensitive_patterns. cbn [fold_left].
  rewrite !guard_step_eq. cbn [fst snd app].
  rewrite <- app_assoc. repeat split.
Qed.

End SsnMatch.

Lemma disjoint_check a b :
  forallb (fun x => negb (existsb (N.eqb x) b)) a = true -> disjoint a b.
Proof.
  intros H x Ha Hb. rewrite forallb_forall in H. specialize (H x Ha).
  apply negb_true_iff in H.
  assert (existsb (N.eqb x) b = true); [|congruence].
  apply existsb_exists. exists x. split; [exact Hb|apply N.eqb_refl].
Qed.

Section TagSurvives.
Context {U : UnicodeDB}.

Lemma card_outside_ssn_tag a b prev r n :
  ssn_redacted = a ++ b -> b <> [] ->
  match_here re_card (last_char prev a) (b ++ r) <> Some (S n).
Proof.
  intros E Hb. each_split E no_match_here.
Qed.

Lemma email_outside_ssn_tag a b prev r n :
  ssn_redacted = a ++ b -> b <> [] ->
  match_here re_email (last_char prev a) (b ++ r) <> Some (S n).
Proof.
  intros E Hb. each_split E no_match_here.
Qed.
End TagSurvives.

Section GuardrailClaims.
Context {U : UnicodeDB}.

Lemma ssn_tag_head_card :
  exists h t, ssn_redacted = h :: t /\ in_classes re_card h = false.
Proof. eexists _, _. split; reflexivity. Qed.

Lemma ssn_tag_head_email :
  exists h t, ssn_redacted = h :: t /\ in_classes re_email h = false.
Proof. eexists _, _. split; reflexivity. Qed.

Lemma card_keeps_ssn_tag t :
  occurs ssn_redacted t -> occurs ssn_redacted (sub re_card card_redacted t).
Proof.
  intros (l & r & ->). unfold sub.
  apply sub_keeps; [|exact ssn_tag_head_card|lia].
  intros a b prev r' n. apply card_outside_ssn_tag.
Qed.

Lemma email_keeps_ssn_tag t :
  occurs ssn_redacted t -> occurs ssn_redacted (sub re_email email_redacted t).
Proof.
  intros (l & r & ->). unfold sub.
  apply sub_keeps; [|exact ssn_tag_head_email|lia].
  intros a b prev r' n. apply email_outside_ssn_tag.
Qed.

Lemma raw_ssn_nonempty : raw_ssn <> [].
Proof. discriminate. Qed.

Lemma raw_ssn_disjoint_tags :
  disjoint raw_ssn ssn_redacted /\ disjoint raw_ssn card_redacted /\
  disjoint raw_ssn email_redacted.
Proof. repeat split; apply disjoint_check; reflexivity. Qed.

Lemma findall_nonempty p t : search p t = true -> findall p t <> [].
Proof.
  unfold search, findall. intros H E. apply findall_search in E. congruence.
Qed.

Lemma delimited_search t : delimited raw_ssn t -> search re_ssn t = true.
Proof.
  intros (l & r & -> & Hl & Hr). apply search_ssn_delimited; assumption.
Qed.

Lemma apply_guardrails_filtered_ssn t :
  delimited raw_ssn t ->
  action (apply_guardrails t) = FILTERED /\
  contains ssn_redacted (filtered_text (apply_guardrails t)) = true.
Proof.
  intros D. apply delimited_search in D.
  destruct (apply_guardrails_passes t) as (Ht & Hr & Ha).
  split.
  - rewrite Ha, Hr. pose proof (findall_nonempty _ _ D) as F.
    destruct (findall re_ssn t); [contradiction|reflexivity].
  - rewrite Ht. apply contains_occurs.
    apply email_keeps_ssn_tag, card_keeps_ssn_tag.
    unfold pass_ssn, sub. apply sub_found. exact D.
Qed.

Lemma apply_guardrails_no_raw_ssn t :
  always_delimited raw_ssn t ->
  contains raw_ssn (filtered_text (apply_guardrails t)) = false.
Proof.
  intros D. destruct (apply_guardrails_passes t) as (Ht & _ & _).
  rewrite Ht. apply not_contains. intros H.
  destruct raw_ssn_disjoint_tags as (D1 & D2 & D3).
  apply sub_no_new in H; [|discriminate|exact raw_ssn_nonempty|exact D3].
  apply sub_no_new in H; [|discriminate|exact raw_ssn_nonempty|exact D2].
  unfold pass_ssn, sub in H.
  apply sub_occurs_unmatched in H; [|discriminate|exact raw_ssn_nonempty|exact D1].
  destruct H as (l & r & E & M).
  destruct (D l r E) as [Hl Hr].
  apply (M 10). apply match_ssn_delimited; assumption.
Qed.

(** C3, amended.  When ["123-45-6789"] stands in [t] between word
    boundaries, the action is [FILTERED] and the filtered text contains
    ["[SSN_REDACTED]"]; when moreover every occurrence of
    ["123-45-6789"] in [t] stands between word boundaries, the filtered
    text does not contain it. *)
Theorem apply_guardrails_ssn t :
  delimited raw_ssn t ->
  action (apply_guardrails t) = FILTERED /\
  contains ssn_redacted (filtered_text (apply_guardrails t)) = true /\
  (always_delimited raw_ssn t ->
   contains raw_ssn (filtered_text (apply_guardrails t)) = false).
Proof.
  intros D. destruct (apply_guardrails_filtered_ssn D) as [A B].
  repeat split; auto using apply_guardrails_no_raw_ssn.
Qed.

(** C7.  A text in which none of the three patterns matches comes back
    unchanged, with no redactions and action [ALLOWED]; and for every
    text the action is [FILTERED] exactly when the list of redactions is
    not empty. *)
Theorem apply_guardrails_allowed t :
  (search re_ssn t = false -> search re_card t = false ->
   search re_email t = false ->
   apply_guardrails t =
     {| filtered_text := t; redactions := []; action := ALLOWED |}) /\
  (action (apply_guardrails t) = FILTERED <-> redactions (apply_guardrails t) <> []).
Proof.
  destruct (apply_guardrails_passes t) as (Ht & Hr & Ha).
  split.
  - intros S1 S2 S3.
    assert (E1 : pass_ssn t = t) by (apply sub_no_match; exact S1).
    assert (E2 : pass_card t = t).
    { unfold pass_card. rewrite E1. apply sub_no_match. exact S2. }
    assert (E3 : pass_email t = t).
    { unfold pass_email. rewrite E2. apply sub_no_match. exact S3. }
    assert (R : redactions (apply_guardrails t) = []).
    { rewrite Hr, E1, E2.
      unfold search, findall in *.
      rewrite (proj2 (findall_search _ _ _) S1), (proj2 (findall_search _ _ _) S2),
        (proj2 (findall_search _ _ _) S3). reflexivity. }
    rewrite R in Ha. rewrite E3 in Ht. clear Hr.
    destruct (apply_guardrails t) as [ft rd ac]. cbn in *. subst. reflexivity.
  - rewrite Ha. destruct (redactions (apply_guardrails t)); split;
      try discriminate; try congruence.
Qed.
End GuardrailClaims.

(** ** The task functions *)

Section TaskFacts.
Context {U : UnicodeDB}.
Variable client : Type.
Variable converse : client -> request -> client * outcome pyval.
Variable subscript_error : pyval -> subscript -> str.
Variable not_a_string_error : pyval -> str.

Local Abbreviation run := (run_task converse subscript_error not_a_string_error).

Lemma run_task_raise t model_id w c e :
  converse (bedrock_runtime w) (task_request t model_id (pdf_file w)) = (c, Raise e) ->
  run t model_id w =
    (world_after w c,
     Raise (Exception (task_error_prefix t (is_client_error e) ++ exn_text e))).
Proof.
  intros H. destruct t; run_to_converse H; unfold raise, world_after;
    cbn [task_error_prefix]; try destruct (is_client_error e); reflexivity.
Qed.

Lemma run_task_return t model_id w c resp :
  converse (bedrock_runtime w) (task_request t model_id (pdf_file w)) = (c, Return resp) ->
  exists out, run t model_id w = (world_after w c, out) /\
              forall result, out = Return result ->
                             result_shape t model_id resp result.
Proof.
  intros H.
  destruct t as [style|prompt| |n|q g]; try destruct g; run_to_converse H;
    unfold response_text, response_usage, guarded_answer, getitem, bind, ret, raise,
      result_shape, text_path, usage_path, world_after;
    cbn [dig];
    repeat match goal with
    | |- context [match subscript_value ?v ?i with _ => _ end] =>
        destruct (subscript_value v i) eqn:?
    | |- context [is_client_error ?e] => destruct (is_client_error e)
    | |- context [match ?x with VStr _ => _ | _ => _ end] => destruct x
    end;
    (eexists; split; [reflexivity|intros result E]);
    try discriminate E; injection E as <-;
    repeat (eexists; repeat split; try reflexivity).
Qed.

(** The world a task leaves behind, whatever the client answers. *)
Lemma run_task_world t model_id w :
  fst (run t model_id w) =
  world_after w (fst (converse (bedrock_runtime w) (task_request t model_id (pdf_file w)))).
Proof.
  destruct (converse (bedrock_runtime w) (task_request t model_id (pdf_file w)))
    as [c [resp|e]] eqn:E.
  - destruct (run_task_return _ E) as (out & -> & _). reflexivity.
  - rewrite (run_task_raise _ E). reflexivity.
Qed.

Lemma task_request_bytes t model_id f :
  document_bytes (task_request t model_id f) = [content f].
Proof. reflexivity. Qed.

Lemma task_request_after_read t model_id f :
  task_request t model_id (file_after_read f) = task_request t model_id f.
Proof. reflexivity. Qed.

End TaskFacts.

Section TaskClaims.
Context {U : UnicodeDB}.
Variable client : Type.
Variable converse : client -> request -> client * outcome pyval.
Variable subscript_error : pyval -> subscript -> str.
Variable not_a_string_error : pyval -> str.

Local Abbreviation run := (run_task converse subscript_error not_a_string_error).
Local Abbreviation run_logged :=
  (run_task (logging converse) subscript_error not_a_string_error).

(** C1, amended.  A task that returns has received a response from the
    client, and its result is: for the two summary functions the
    summary, the model id, the two token counts of the usage block and
    the top-level stop reason, as the response has them; for the Q&A
    function the answer (after the guardrail pass when enabled), the
    question, the model id and the two token counts; for sentiment and
    topics the text and the model id only. *)
Theorem task_results t model_id w result :
  snd (run t model_id w) = Return result ->
  exists resp,
    snd (converse (bedrock_runtime w) (task_request t model_id (pdf_file w))) = Return resp /\
    result_shape t model_id resp result.
Proof.
  destruct (converse (bedrock_runtime w) (task_request t model_id (pdf_file w)))
    as [c [resp|e]] eqn:E; intros H.
  - destruct (run_task_return _ subscript_error not_a_string_error _ _ _ E) as (out & R & S).
    rewrite R in H. exists resp. split; [reflexivity|]. apply S. exact H.
  - rewrite (run_task_raise _ subscript_error not_a_string_error _ _ _ E) in H. discriminate.
Qed.

Lemma logging_step (w : world (client * list request)) req :
  logging converse (bedrock_runtime w) req =
  ((fst (converse (fst (bedrock_runtime w)) req), snd (bedrock_runtime w) ++ [req]),
   snd (converse (fst (bedrock_runtime w)) req)).
Proof. unfold logging. destruct (converse _ _). reflexivity. Qed.

Lemma run_logged_calls t model_id (w : world (client * list request)) :
  snd (bedrock_runtime (fst (run_logged t model_id w))) =
  snd (bedrock_runtime w) ++ [task_request t model_id (pdf_file w)].
Proof. rewrite run_task_world, logging_step. reflexivity. Qed.

(** C5.  When the client raises [e], the task raises one exception
    whose text is the handler's prefix followed by [str(e)]; no result
    is returned, and the client has been called exactly once. *)
Theorem transport_error_fails_once t model_id (w : world (client * list request)) e :
  snd (converse (fst (bedrock_runtime w)) (task_request t model_id (pdf_file w))) = Raise e ->
  snd (run_logged t model_id w) =
    Raise (Exception (task_error_prefix t (is_client_error e) ++ exn_text e)) /\
  snd (bedrock_runtime (fst (run_logged t model_id w))) =
    snd (bedrock_runtime w) ++ [task_request t model_id (pdf_file w)].
Proof.
  intros H. split; [|apply run_logged_calls].
  pose proof (logging_step w (task_request t model_id (pdf_file w))) as L.
  rewrite H in L. rewrite (run_task_raise _ subscript_error not_a_string_error _ _ _ L). reflexivity.
Qed.

(** C9.  Whatever the read position of the file, the request a task
    sends carries the whole content of the file, and a second call on
    the same file sends the same request again. *)
Theorem reads_from_start t model_id (w : world (client * list request)) :
  let req := task_request t model_id (pdf_file w) in
  let w1 := fst (run_logged t model_id w) in
  let w2 := fst (run_logged t model_id w1) in
  document_bytes req = [content (pdf_file w)] /\
  snd (bedrock_runtime w1) = snd (bedrock_runtime w) ++ [req] /\
  snd (bedrock_runtime w2) = snd (bedrock_runtime w) ++ [req; req].
Proof.
  cbv zeta. split; [reflexivity|]. split; [apply run_logged_calls|].
  rewrite !run_logged_calls, <- app_assoc.
  rewrite run_task_world. reflexivity.
Qed.

Lemma guarded_question_ssn :
  guarded_question (lit "My SSN is 123-45-6789") true = lit "My SSN is [SSN_REDACTED]".
Proof. vm_compute. reflexivity. Qed.

(** C4.  For the question ["My SSN is 123-45-6789"] with guardrails on,
    the one request sent has the text part
    ["Based on this document, answer: My SSN is [SSN_REDACTED]"], which
    contains the placeholder and not the number. *)
Theorem question_ssn_redacted model_id (w : world (client * list request)) :
  let t := QuestionAnswer (lit "My SSN is 123-45-6789") true in
  exists req text,
    snd (bedrock_runtime (fst (run_logged t model_id w))) = snd (bedrock_runtime w) ++ [req] /\
    text_parts req = [text] /\
    text = lit "Based on this document, answer: My SSN is [SSN_REDACTED]" /\
    contains (lit "[SSN_REDACTED]") text = true /\
    contains (lit "123-45-6789") text = false.
Proof.
  cbv zeta.
  exists (task_request (QuestionAnswer (lit "My SSN is 123-45-6789") true)
                       model_id (pdf_file w)),
         (lit "Based on this document, answer: My SSN is [SSN_REDACTED]").
  split; [apply run_logged_calls|].
  split; [|repeat split].
  change (text_parts _) with
    [question_prompt (guarded_question (lit "My SSN is 123-45-6789") true)].
  rewrite guarded_question_ssn. reflexivity.
Qed.

End TaskClaims.

Lemma dict_get_missing d k default :
  ~ In k (map fst d) -> dict_get d k default = default.
Proof.
  unfold dict_get. intros H.
  destruct (find (fun kv => str_eqb (fst kv) k) d) as [kv|] eqn:F; [|reflexivity].
  exfalso. apply find_some in F. destruct F as [I E]. apply H.
  unfold str_eqb in E. destruct (list_eq_dec N.eq_dec (fst kv) k) as [<-|]; [|discriminate].
  apply in_map. exact I.
Qed.

(** C8.  The prompts of the four styles are non-empty and pairwise
    distinct, and any other style gets the prompt of ["concise"]. *)
Theorem summary_prompt_styles :
  (forall s, In s four_styles -> summary_prompt s <> []) /\
  NoDup (map summary_prompt four_styles) /\
  (forall s, ~ In s four_styles -> summary_prompt s = summary_prompt (lit "concise")).
Proof.
  split; [|split].
  - intros s [<-|[<-|[<-|[<-|[]]]]]; discriminate.
  - repeat constructor; cbn; intuition discriminate.
  - intros s H. unfold summary_prompt. apply dict_get_missing. exact H.
Qed.

(** ** Concrete runs *)

(** C1, counterexample.  The result of the sentiment task on a well-formed
    response has the keys [analysis] and [model] only: no token counts. *)
Lemma sentiment_result_has_no_token_counts :
  exists result,
    snd (@run_task basic_latin _ sample_converse no_text no_text' Sentiment
           DEFAULT_LLM_MODEL sample_world)
      = Return result /\
    result = VDict [(lit "analysis", VStr (lit "X")); (lit "model", VStr DEFAULT_LLM_MODEL)] /\
    subscript_value result (Key (lit "input_tokens")) = None /\
    subscript_value result (Key (lit "output_tokens")) = None.
Proof. eexists. repeat split. Qed.

(** C1, witness: the summary of the sample file. *)
Lemma task_results_witness :
  snd (@run_task basic_latin _ sample_converse no_text no_text'
         (Summarize (lit "concise")) DEFAULT_LLM_MODEL sample_world)
    = Return (VDict [(lit "summary", VStr (lit "X"));
                     (lit "model", VStr DEFAULT_LLM_MODEL);
                     (lit "input_tokens", VInt 10);
                     (lit "output_tokens", VInt 5);
                     (lit "stop_reason", VStr (lit "end_turn"))]) /\
  exists resp,
    snd (sample_converse (bedrock_runtime sample_world)
           (@task_request basic_latin (Summarize (lit "concise")) DEFAULT_LLM_MODEL
              (pdf_file sample_world))) = Return resp /\
    @result_shape basic_latin (Summarize (lit "concise")) DEFAULT_LLM_MODEL resp
      (VDict [(lit "summary", VStr (lit "X"));
              (lit "model", VStr DEFAULT_LLM_MODEL);
              (lit "input_tokens", VInt 10);
              (lit "output_tokens", VInt 5);
              (lit "stop_reason", VStr (lit "end_turn"))]).
Proof.
  split; [reflexivity|].
  apply (@task_results basic_latin unit sample_converse no_text no_text').
  reflexivity.
Defined.

(** C2.  On ["report.pdf"] the sanitizer returns ["report_pdf"]: the
    replacement character [_] is not in the allowed set, and neither is
    the dot of the fallback ["document.pdf"]. *)
Lemma sanitize_filename_keeps_underscore :
  sanitize_filename (Some (lit "report.pdf")) = lit "report_pdf" /\
  forallb allowed (sanitize_filename (Some (lit "report.pdf"))) = false /\
  forallb allowed (sanitize_filename (Some [])) = false.
Proof. repeat split. Qed.

(** C3, counterexample.  In ["0123-45-6789"] the number follows a digit,
    so [\b] does not hold before it: nothing is redacted.  (The text is
    ASCII, so the result is the same for every [UnicodeDB].) *)
Lemma ssn_inside_word_not_redacted :
  let t := lit "0123-45-6789" in
  contains (lit "123-45-6789") t = true /\
  action (@apply_guardrails basic_latin t) = ALLOWED /\
  contains (lit "[SSN_REDACTED]") (filtered_text (@apply_guardrails basic_latin t)) = false /\
  contains (lit "123-45-6789") (filtered_text (@apply_guardrails basic_latin t)) = true.
Proof. vm_compute. repeat split. Qed.

(** C3, witness. *)
Lemma apply_guardrails_ssn_witness :
  let t := lit "My SSN is 123-45-6789" in
  @delimited basic_latin raw_ssn t /\
  action (@apply_guardrails basic_latin t) = FILTERED /\
  contains ssn_redacted (filtered_text (@apply_guardrails basic_latin t)) = true /\
  (@always_delimited basic_latin raw_ssn t ->
   contains raw_ssn (filtered_text (@apply_guardrails basic_latin t)) = false).
Proof.
  cbv zeta.
  assert (D : @delimited basic_latin raw_ssn (lit "My SSN is 123-45-6789")).
  { exists (lit "My SSN is "), []. repeat split. }
  split; [exact D|].
  apply (@apply_guardrails_ssn basic_latin (lit "My SSN is 123-45-6789") D).
Defined.

(** C5, witness: a throttled sentiment call. *)
Lemma transport_error_fails_once_witness :
  let t := Sentiment in
  snd (failing_converse (fst (bedrock_runtime sample_logged_world))
         (@task_request basic_latin t DEFAULT_LLM_MODEL (pdf_file sample_logged_world)))
    = Raise {| is_client_error := true; exn_text := lit "ThrottlingException" |} /\
  snd (@run_task basic_latin _ (logging failing_converse) no_text no_text' t
         DEFAULT_LLM_MODEL sample_logged_world)
    = Raise (Exception (lit "Error analyzing sentiment: ThrottlingException")) /\
  snd (bedrock_runtime
         (fst (@run_task basic_latin _ (logging failing_converse) no_text no_text' t
                 DEFAULT_LLM_MODEL sample_logged_world)))
    = [@task_request basic_latin t DEFAULT_LLM_MODEL sample_file].
Proof.
  cbv zeta. split; [reflexivity|].
  exact (@transport_error_fails_once basic_latin unit failing_converse no_text no_text'
           Sentiment DEFAULT_LLM_MODEL sample_logged_world
           {| is_client_error := true; exn_text := lit "ThrottlingException" |}
           eq_refl).
Defined.

(** C7, witness. *)
Lemma apply_guardrails_allowed_witness :
  let t := lit "What is the main topic of this document?" in
  (Re.search (@re_ssn basic_latin) t = false /\
   Re.search (@re_card basic_latin) t = false /\
   Re.search (@re_email basic_latin) t = false) /\
  @apply_guardrails basic_latin t =
    {| filtered_text := t; redactions := []; action := ALLOWED |}.
Proof.
  cbv zeta. split; [repeat split; vm_compute; reflexivity|].
  apply (proj1 (@apply_guardrails_allowed basic_latin
                  (lit "What is the main topic of this document?")));
    vm_compute; reflexivity.
Defined.

(** C8, witness: an unknown style. *)
Lemma summary_prompt_styles_witness :
  ~ In (lit "verbose") four_styles /\
  summary_prompt (lit "verbose") =
    lit "Provide a concise summary of this document in 2-3 paragraphs.".
Proof.
  assert (H : ~ In (lit "verbose") four_styles).
  { cbn. intuition discriminate. }
  split; [exact H|].
  exact (proj2 (proj2 summary_prompt_styles) (lit "verbose") H).
Defined.

(** C10, counterexample.  The fallback is not a fixed point: sanitizing
    ["document.pdf"] gives ["document_pdf"]. *)
Lemma sanitize_filename_not_idempotent :
  sanitize_filename (Some []) = lit "document.pdf" /\
  sanitize_filename (Some (sanitize_filename (Some []))) = lit "document_pdf" /\
  sanitize_filename (Some (sanitize_filename (Some []))) <> sanitize_filename (Some []).
Proof. repeat split. discriminate. Qed.

(** C10, witness. *)
Lemma sanitize_filename_idempotent_witness :
  sanitize_filename (Some (lit "my  report (v2).pdf")) <> default_name /\
  sanitize_filename (Some (sanitize_filename (Some (lit "my  report (v2).pdf")))) =
    sanitize_filename (Some (lit "my  report (v2).pdf")).
Proof.
  assert (H : sanitize_filename (Some (lit "my  report (v2).pdf")) <> default_name)
    by discriminate.
  split; [exact H|].
  exact (sanitize_filename_idempotent_off_default (Some (lit "my  report (v2).pdf")) H).
Defined.

(** * Further properties *)

(** ** The sanitizer *)

Lemma trim_spaces_clean s :
  starts_clean (trim_spaces s) = true /\ ends_clean (trim_spaces s) = true.
Proof.
  unfold ends_clean, trim_spaces. rewrite rev_involutive. split; [|apply trim_left_clean].
  destruct (trim_left_suffix (rev (trim_left s))) as [l E].
  apply starts_clean_prefix with (b := rev l).
  rewrite <- rev_app_distr, <- E, rev_involutive. apply trim_left_clean.
Qed.

Lemma trim_spaces_id s :
  starts_clean s = true -> ends_clean s = true -> trim_spaces s = s.
Proof.
  unfold ends_clean, trim_spaces. intros A B.
  rewrite (trim_left_fix _ A), (trim_left_fix _ B). apply rev_involutive.
Qed.

Lemma cleaned_id f :
  sanitized_str f -> single_spaced f = true -> starts_clean f = true ->
  ends_clean f = true -> cleaned f = f.
Proof.
  intros A B C D. unfold cleaned.
  rewrite (map_replace_fix A), (collapse_fix _ B). apply trim_spaces_id; assumption.
Qed.

Lemma sanitize_filename_cases f :
  (cleaned f = [] /\ sanitize_filename (Some f) = default_name) \/
  (cleaned f <> [] /\ sanitize_filename (Some f) = cleaned f).
Proof.
  rewrite sanitize_filename_cleaned. destruct (cleaned f) eqn:E.
  - left. split; reflexivity.
  - right. split; [discriminate|reflexivity].
Qed.

Lemma sanitize_filename_shape (filename : option str) :
  sanitize_filename filename <> [] /\
  starts_clean (sanitize_filename filename) = true /\
  ends_clean (sanitize_filename filename) = true /\
  contains (lit "  ") (sanitize_filename filename) = false.
Proof.
  destruct filename as [f|]; [|repeat split; discriminate].
  destruct (sanitize_filename_cases f) as [[_ ->]|[N ->]].
  - repeat split; discriminate.
  - destruct (trim_spaces_clean (collapse_spaces (map replace_disallowed f))) as [A B].
    repeat split; try assumption.
    apply single_spaced_no_double, cleaned_single_spaced.
Qed.

(** X1.  Whatever the input (a name, the empty name or [None]), the
    sanitized name is not empty, does not begin or end with a space and
    has no two consecutive spaces. *)
Theorem sanitize_filename_well_formed (filename : option str) :
  let r := sanitize_filename filename in
  r <> [] /\ starts_clean r = true /\ ends_clean r = true /\
  contains (lit "  ") r = false.
Proof. exact (sanitize_filename_shape filename). Qed.

(** X2.  Unless the result is the fallback ["document.pdf"], every
    character of it is an allowed character or the replacement [_]; in
    particular it has no dot, so the extension of the uploaded file
    never survives as an extension. *)
Theorem sanitize_filename_alphabet (filename : option str) :
  sanitize_filename filename = default_name \/
  (sanitized_str (sanitize_filename filename) /\
   ~ In (ch ".") (sanitize_filename filename)).
Proof.
  destruct filename as [f|]; [|left; reflexivity].
  destruct (sanitize_filename_cases f) as [[_ ->]|[N ->]]; [left; reflexivity|right].
  split; [apply cleaned_sanitized|].
  intros H. pose proof (cleaned_sanitized f) as S. unfold sanitized_str in S.
  rewrite Forall_forall in S. specialize (S _ H). discriminate S.
Qed.

(** X3.  The names the sanitizer returns unchanged are exactly the
    non-empty names made of allowed characters and underscores, with no
    two consecutive spaces and no space at either end. *)
Theorem sanitize_filename_fixed_points (f : str) :
  sanitize_filename (Some f) = f <-> clean_name f.
Proof.
  unfold clean_name. split.
  - intros E. destruct (sanitize_filename_cases f) as [[C D]|[N D]]; rewrite D in E.
    + exfalso. subst f. vm_compute in C. discriminate C.
    + destruct (trim_spaces_clean (collapse_spaces (map replace_disallowed f))) as [A B].
      fold (cleaned f) in A, B. pose proof (cleaned_sanitized f) as S.
      pose proof (cleaned_single_spaced f) as G.
      rewrite E in *. repeat split; assumption.
  - intros (N & A & B & C & D). rewrite sanitize_filename_cleaned.
    rewrite (cleaned_id A B C D). destruct f; [contradiction|reflexivity].
Qed.

(** X3, witness. *)
Lemma sanitize_filename_fixed_points_witness :
  clean_name (lit "Annual Report (2024) [final]-v2") /\
  sanitize_filename (Some (lit "Annual Report (2024) [final]-v2")) =
    lit "Annual Report (2024) [final]-v2".
Proof.
  assert (H : clean_name (lit "Annual Report (2024) [final]-v2")).
  { repeat split; try discriminate; try reflexivity.
    unfold sanitized_str. apply Forall_forall. apply forallb_forall. vm_compute. reflexivity. }
  split; [exact H|].
  exact (proj2 (sanitize_filename_fixed_points (lit "Annual Report (2024) [final]-v2")) H).
Defined.

Lemma collapse_length s : List.length (collapse_spaces s) <= List.length s.
Proof.
  induction s as [|c s IH]; [auto|].
  destruct s as [|d s]; [auto|].
  change (collapse_spaces (c :: d :: s)) with
    (if eqc " " c && eqc " " d then collapse_spaces (d :: s)
     else c :: collapse_spaces (d :: s)).
  destruct (eqc " " c && eqc " " d); cbn [List.length] in *; lia.
Qed.

Lemma cleaned_length f : List.length (cleaned f) <= List.length f.
Proof.
  unfold cleaned.
  destruct (trim_spaces_sub (collapse_spaces (map replace_disallowed f))) as (l & r & E).
  pose proof (collapse_length (map replace_disallowed f)) as L.
  rewrite E in L at 1. rewrite !length_app, length_map in L. lia.
Qed.

(** X4.  A result other than the fallback is never longer than the
    name it was made from. *)
Theorem sanitize_filename_length (f : str) :
  sanitize_filename (Some f) <> default_name ->
  List.length (sanitize_filename (Some f)) <= List.length f.
Proof.
  destruct (sanitize_filename_cases f) as [[_ ->]|[N ->]]; [intros H; contradiction|].
  intros _. apply cleaned_length.
Qed.

(** X4, witness. *)
Lemma sanitize_filename_length_witness :
  sanitize_filename (Some (lit "  Q3   results.pdf ")) <> default_name /\
  List.length (sanitize_filename (Some (lit "  Q3   results.pdf "))) <=
    List.length (lit "  Q3   results.pdf ").
Proof.
  assert (H : sanitize_filename (Some (lit "  Q3   results.pdf ")) <> default_name)
    by discriminate.
  split; [exact H|].
  exact (@sanitize_filename_length (lit "  Q3   results.pdf ") H).
Defined.

Lemma collapse_no_space s :
  Forall (fun c => eqc " " c = false) s -> collapse_spaces s = s.
Proof.
  induction 1 as [|c s Hc Hs IH]; [reflexivity|].
  destruct s as [|d s]; [reflexivity|].
  change (collapse_spaces (c :: d :: s)) with
    (if eqc " " c && eqc " " d then collapse_spaces (d :: s)
     else c :: collapse_spaces (d :: s)).
  rewrite Hc, IH. reflexivity.
Qed.

Lemma trim_left_no_space s :
  Forall (fun c => eqc " " c = false) s -> trim_left s = s.
Proof. intros H. destruct H as [|c s Hc Hs]; [reflexivity|]. cbn. rewrite Hc. reflexivity. Qed.

Lemma map_replace_invalid f :
  Forall (fun c => allowed c = false) f ->
  map replace_disallowed f = repeat (ch "_") (List.length f).
Proof.
  induction 1 as [|c s Hc Hs IH]; [reflexivity|].
  cbn [map List.length repeat]. unfold replace_disallowed at 1. rewrite Hc, IH. reflexivity.
Qed.

Lemma repeat_no_space n : Forall (fun c => eqc " " c = false) (repeat (ch "_") n).
Proof. induction n; constructor; auto. Qed.

(** X5.  A non-empty name without a single allowed character (one
    written entirely in a non-Latin script, say) becomes a row of
    underscores of the same length. *)
Theorem sanitize_filename_all_invalid (f : str) :
  f <> [] -> Forall (fun c => allowed c = false) f ->
  sanitize_filename (Some f) = repeat (ch "_") (List.length f).
Proof.
  intros N H. rewrite sanitize_filename_cleaned. unfold cleaned.
  rewrite (map_replace_invalid H), (collapse_no_space (repeat_no_space _)).
  unfold trim_spaces.
  rewrite (trim_left_no_space (repeat_no_space _)).
  rewrite trim_left_no_space by (apply Forall_rev, repeat_no_space).
  rewrite rev_involutive. destruct f; [contradiction|reflexivity].
Qed.

(** X5, witness. *)
Lemma sanitize_filename_all_invalid_witness :
  let f := [26085; 26412; 35486]%N in
  f <> [] /\ Forall (fun c => allowed c = false) f /\
  sanitize_filename (Some f) = lit "___".
Proof.
  cbv zeta.
  assert (N : [26085; 26412; 35486]%N <> []) by discriminate.
  assert (H : Forall (fun c => allowed c = false) [26085; 26412; 35486]%N)
    by (repeat constructor).
  split; [exact N|]. split; [exact H|].
  exact (@sanitize_filename_all_invalid [26085; 26412; 35486]%N N H).
Defined.

Lemma trim_left_blank s : blank s -> trim_left s = [].
Proof.
  induction 1 as [|c s Hc Hs IH]; [reflexivity|]. subst c. cbn. exact IH.
Qed.

Lemma trim_left_nil s : trim_left s = [] -> blank s.
Proof.
  induction s as [|c s IH]; [constructor|]. cbn [trim_left].
  destruct (eqc " " c) eqn:E; [|discriminate].
  intros H. constructor; [apply eqc_true; exact E|apply IH; exact H].
Qed.

Lemma trim_spaces_nil s : trim_spaces s = [] <-> blank s.
Proof.
  unfold trim_spaces. split.
  - intros H. apply (f_equal (@rev _)) in H. rewrite rev_involutive in H. cbn in H.
    apply trim_left_nil in H. apply Forall_rev in H. rewrite rev_involutive in H.
    destruct (trim_left_suffix s) as [l E].
    destruct (trim_left s) as [|c t] eqn:T.
    + apply trim_left_nil. exact T.
    + exfalso. pose proof (trim_left_clean s) as C. rewrite T in C.
      inversion H as [|? ? Hc _]; subst. discriminate C.
  - intros H. rewrite (trim_left_blank H). reflexivity.
Qed.

Lemma collapse_blank s : blank (collapse_spaces s) <-> blank s.
Proof.
  induction s as [|c s IH]; [tauto|].
  destruct s as [|d s]; [tauto|].
  change (collapse_spaces (c :: d :: s)) with
    (if eqc " " c && eqc " " d then collapse_spaces (d :: s)
     else c :: collapse_spaces (d :: s)).
  destruct (eqc " " c && eqc " " d) eqn:E.
  - apply andb_true_iff in E. destruct E as [Ec Ed]. apply eqc_true in Ec.
    rewrite IH. split; intros H; [constructor; assumption|inversion H; assumption].
  - split; intros H; inversion H as [|? ? Hc Hs]; subst; constructor; auto; apply IH; auto.
Qed.

Lemma map_replace_blank f : blank (map replace_disallowed f) <-> blank f.
Proof.
  induction f as [|c f IH]; [tauto|]. cbn [map].
  split; intros H; inversion H as [|? ? Hc Hs]; subst; constructor; try (apply IH; assumption).
  - unfold replace_disallowed in Hc. destruct (allowed c); [exact Hc|discriminate Hc].
  - reflexivity.
Qed.

(** X6.  The sanitizer falls back to ["document.pdf"] for a name
    exactly when the name consists of space characters only, the empty
    name included. *)
Theorem sanitize_filename_fallback (f : str) :
  sanitize_filename (Some f) = default_name <-> blank f.
Proof.
  rewrite <- map_replace_blank, <- collapse_blank, <- trim_spaces_nil.
  fold (cleaned f).
  destruct (sanitize_filename_cases f) as [[C ->]|[N ->]]; split; auto.
  - intros E. exfalso. apply default_name_not_sanitized. rewrite <- E.
    apply cleaned_sanitized.
  - intros E. contradiction.
Qed.

(** ** The guardrails *)

Lemma firstn_add (A : Type) i j (l : list A) :
  firstn (i + j) l = firstn i l ++ firstn j (skipn i l).
Proof.
  revert l; induction i as [|i IH]; intros [|x l]; cbn [Nat.add firstn skipn app];
    try reflexivity.
  - rewrite firstn_nil. reflexivity.
  - f_equal. apply IH.
Qed.

Lemma Exists_firstn (A : Type) (P : A -> Prop) n (l : list A) :
  Exists P (firstn n l) -> Exists P l.
Proof.
  intros H. rewrite <- (firstn_skipn n l). apply Exists_app. left. exact H.
Qed.

(** A class that the pattern must consume at least once has one of its
    characters in every match. *)
Lemma match_here_requires cls lo hi p : forall prev s n,
  In (Rep cls lo hi) p -> 0 < lo ->
  match_here p prev s = Some n ->
  Exists (fun c => cls c = true) (firstn n s).
Proof.
  induction p as [|[cls0 lo0 hi0|a] p IH]; intros prev s n I L; cbn [match_here].
  - destruct I.
  - intros H. apply ReFacts.backtrack_bounds in H.
    destruct H as (i & j & Hi & Hlo & -> & Hk).
    rewrite firstn_add. apply Exists_app.
    destruct I as [E|I].
    + left. injection E as -> -> ->.
      pose proof (ReFacts.run_Forall cls hi s) as F.
      apply Forall_firstn with (n := i) in F.
      rewrite firstn_firstn, Nat.min_l in F by exact Hi.
      pose proof (ReFacts.run_le cls hi s) as R.
      destruct s as [|c s]; [cbn in R; lia|].
      destruct i as [|i]; [lia|].
      cbn [firstn] in *. inversion F; subst. constructor. assumption.
    + right. apply (IH _ _ _ I L Hk).
  - destruct (a prev (hd_error s)); [|discriminate].
    destruct I as [E|I]; [discriminate E|]. apply IH; assumption.
Qed.

Lemma search_requires cls lo hi p s : forall prev,
  In (Rep cls lo hi) p -> 0 < lo ->
  search_from p prev s = true -> Exists (fun c => cls c = true) s.
Proof.
  induction s as [|c s IH]; intros prev I L; cbn [search_from]; [discriminate|].
  destruct (match_here p prev (c :: s)) as [[|n]|] eqn:M;
    try (intros H; apply Exists_cons_tl; eapply IH; eassumption).
  intros _. eapply Exists_firstn. eapply match_here_requires; eassumption.
Qed.

Lemma search_without cls lo hi p s :
  In (Rep cls lo hi) p -> 0 < lo ->
  Forall (fun c => cls c = false) s -> search p s = false.
Proof.
  intros I L F. destruct (search p s) eqn:S; [|reflexivity].
  unfold search in S. apply (@search_requires cls lo hi p s None I L) in S.
  apply Exists_exists in S.
  destruct S as (c & Hc & E). rewrite Forall_forall in F. rewrite (F _ Hc) in E.
  discriminate.
Qed.

Section GuardrailExtras.
Context {U : UnicodeDB}.

Lemma no_redactions t :
  redactions (apply_guardrails t) = [] ->
  search re_ssn t = false /\ search re_card t = false /\ search re_email t = false /\
  filtered_text (apply_guardrails t) = t.
Proof.
  destruct (apply_guardrails_passes t) as (Ht & Hr & _). rewrite Hr, Ht.
  intros E. apply app_eq_nil in E. destruct E as [E1 E]. apply app_eq_nil in E.
  destruct E as [E2 E3].
  apply findall_search in E1.
  assert (P1 : pass_ssn t = t) by (apply sub_no_match; exact E1).
  rewrite P1 in E2. apply findall_search in E2.
  assert (P2 : pass_card t = t) by (unfold pass_card; rewrite P1; apply sub_no_match; exact E2).
  rewrite P2 in E3. apply findall_search in E3.
  repeat split; try assumption.
  unfold pass_email. rewrite P2. apply sub_no_match. exact E3.
Qed.

(** X7.  The [if matches:] guard of the loop changes nothing.  The
    filtered text is always the email substitution of the card
    substitution of the SSN substitution of the text, and the redactions
    are listed pattern by pattern: the SSN matches of the text, then the
    card matches of the text after the SSN pass, then the email matches
    of the text after the card pass, whatever their order in the text. *)
Theorem apply_guardrails_by_pattern t :
  let t1 := sub re_ssn ssn_redacted t in
  let t2 := sub re_card card_redacted t1 in
  filtered_text (apply_guardrails t) = sub re_email email_redacted t2 /\
  redactions (apply_guardrails t) =
    findall re_ssn t ++ findall re_card t1 ++ findall re_email t2.
Proof.
  cbv zeta. destruct (apply_guardrails_passes t) as (A & B & _). split; assumption.
Qed.

(** X8.  When the action is [ALLOWED], the text comes back unchanged
    and no redaction is recorded. *)
Theorem allowed_means_unchanged t :
  action (apply_guardrails t) = ALLOWED ->
  filtered_text (apply_guardrails t) = t /\ redactions (apply_guardrails t) = [].
Proof.
  destruct (apply_guardrails_passes t) as (_ & _ & Ha). rewrite Ha.
  destruct (redactions (apply_guardrails t)) eqn:R; [|discriminate].
  intros _. split; [|reflexivity]. apply no_redactions. exact R.
Qed.

Lemma email_outside_card_tag a b prev r n :
  card_redacted = a ++ b -> b <> [] ->
  match_here re_email (last_char prev a) (b ++ r) <> Some (S n).
Proof.
  intros E Hb. each_split_of card_redacted E no_match_here.
Qed.

Lemma email_keeps_card_tag t :
  occurs card_redacted t -> occurs card_redacted (sub re_email email_redacted t).
Proof.
  intros (l & r & ->). unfold sub.
  apply sub_keeps; [| |lia].
  - intros a b prev r' n. apply email_outside_card_tag.
  - eexists _, _. split; reflexivity.
Qed.

(** X9.  When the action is [FILTERED], the filtered text contains at
    least one of the three placeholders: a later pass never removes the
    placeholder an earlier pass has put in. *)
Theorem apply_guardrails_filtered_placeholder t :
  action (apply_guardrails t) = FILTERED ->
  exists tag, In tag placeholders /\
              contains tag (filtered_text (apply_guardrails t)) = true.
Proof.
  destruct (apply_guardrails_passes t) as (Ht & Hr & Ha). rewrite Ha, Hr, Ht.
  destruct (findall re_ssn t) as [|m1 r1] eqn:F1.
  - destruct (findall re_card (pass_ssn t)) as [|m2 r2] eqn:F2.
    + destruct (findall re_email (pass_card t)) as [|m3 r3] eqn:F3; [discriminate|].
      intros _. exists email_redacted. split; [right; right; left; reflexivity|].
      apply contains_occurs. unfold pass_email, sub. apply sub_found.
      destruct (search_from re_email None (pass_card t)) eqn:S; [reflexivity|].
      apply findall_search in S. unfold findall in F3. congruence.
    + intros _. exists card_redacted. split; [right; left; reflexivity|].
      apply contains_occurs. apply email_keeps_card_tag.
      unfold pass_card, sub. apply sub_found.
      destruct (search_from re_card None (pass_ssn t)) eqn:S; [reflexivity|].
      apply findall_search in S. unfold findall in F2. congruence.
  - intros _. exists ssn_redacted. split; [left; reflexivity|].
    apply contains_occurs. apply email_keeps_ssn_tag, card_keeps_ssn_tag.
    unfold pass_ssn, sub. apply sub_found.
    destruct (search_from re_ssn None t) eqn:S; [reflexivity|].
    apply findall_search in S. unfold findall in F1. congruence.
Qed.

(** X10.  A text with no decimal digit and no [@] is never touched:
    it comes back unchanged, with no redactions and action [ALLOWED]. *)
Theorem apply_guardrails_needs_digit_or_at t :
  Forall (fun c => digit c = false /\ eqc "@" c = false) t ->
  apply_guardrails t = {| filtered_text := t; redactions := []; action := ALLOWED |}.
Proof.
  intros F.
  assert (Fd : Forall (fun c => digit c = false) t)
    by (eapply Forall_impl; [|exact F]; cbn; tauto).
  assert (Fa : Forall (fun c => eqc "@" c = false) t)
    by (eapply Forall_impl; [|exact F]; cbn; tauto).
  assert (S1 : search re_ssn t = false).
  { apply search_without with (cls := digit) (lo := 3) (hi := Some 3);
      [right; left; reflexivity|lia|exact Fd]. }
  assert (S2 : search re_card t = false).
  { apply search_without with (cls := digit) (lo := 16) (hi := Some 16);
      [right; left; reflexivity|lia|exact Fd]. }
  assert (S3 : search re_email t = false).
  { apply search_without with (cls := eqc "@") (lo := 1) (hi := Some 1);
      [right; right; left; reflexivity|lia|exact Fa]. }
  destruct (apply_guardrails_passes t) as (Ht & Hr & Ha).
  assert (E1 : pass_ssn t = t) by (apply sub_no_match; exact S1).
  assert (E2 : pass_card t = t).
  { unfold pass_card. rewrite E1. apply sub_no_match. exact S2. }
  assert (E3 : pass_email t = t).
  { unfold pass_email. rewrite E2. apply sub_no_match. exact S3. }
  assert (R : redactions (apply_guardrails t) = []).
  { rewrite Hr, E1, E2. unfold search, findall in *.
    rewrite (proj2 (findall_search _ _ _) S1), (proj2 (findall_search _ _ _) S2),
      (proj2 (findall_search _ _ _) S3). reflexivity. }
  rewrite R in Ha. rewrite E3 in Ht. clear Hr.
  destruct (apply_guardrails t) as [ft rd ac]. cbn in *. subst. reflexivity.
Qed.

End GuardrailExtras.

(** ** Numbers of a fixed shape *)

Lemma run_upto_le cls h s : run_upto cls h s <= h.
Proof.
  revert s; induction h as [|h IH]; intros [|c s]; cbn [run_upto]; try lia.
  destruct (cls c); [specialize (IH s)|]; lia.
Qed.

Lemma run_upto_exact cls u v :
  Forall (fun c => cls c = true) u -> run_upto cls (List.length u) (u ++ v) = List.length u.
Proof.
  induction 1 as [|c u Hc Hu IH]; [reflexivity|].
  cbn [List.length app run_upto]. rewrite Hc, IH. reflexivity.
Qed.

Lemma backtrack_first k prev s lo n m :
  lo <= n -> k (prev_after prev (firstn n s)) (skipn n s) = Some m ->
  backtrack k prev s lo n = Some (n + m).
Proof.
  intros L H. apply Nat.ltb_ge in L.
  destruct n; cbn [backtrack]; rewrite L, H; reflexivity.
Qed.

(** A class repeated exactly [k] times: the match is the [k] characters
    followed by a match of the rest. *)
Lemma match_fixed_intro cls k p prev u v m :
  List.length u = k ->
  Forall (fun c => cls c = true) u ->
  match_here p (prev_after prev u) v = Some m ->
  match_here (Rep cls k (Some k) :: p) prev (u ++ v) = Some (k + m).
Proof.
  intros <- F H. cbn [match_here run]. rewrite run_upto_exact by exact F.
  apply backtrack_first; [lia|].
  rewrite firstn_app, firstn_all, Nat.sub_diag, firstn_O, app_nil_r.
  rewrite skipn_app, skipn_all, Nat.sub_diag, skipn_O. exact H.
Qed.

Lemma match_fixed_inv cls k p prev s n :
  match_here (Rep cls k (Some k) :: p) prev s = Some n ->
  exists m, n = k + m /\ k <= List.length s /\
            Forall (fun c => cls c = true) (firstn k s) /\
            match_here p (prev_after prev (firstn k s)) (skipn k s) = Some m.
Proof.
  cbn [match_here run]. intros H. apply ReFacts.backtrack_bounds in H.
  destruct H as (i & j & Hi & Hlo & -> & Hk).
  pose proof (run_upto_le cls k s) as L.
  assert (i = k) as -> by lia.
  assert (R : run_upto cls k s = k) by lia.
  exists j. repeat split; try assumption.
  - pose proof (ReFacts.run_le cls (Some k) s) as G. cbn [run] in G. lia.
  - pose proof (ReFacts.run_Forall cls (Some k) s) as G. cbn [run] in G.
    rewrite R in G. exact G.
Qed.

Lemma match_assert_inv a p prev s n :
  match_here (Assert a :: p) prev s = Some n ->
  a prev (hd_error s) = true /\ match_here p prev s = Some n.
Proof.
  cbn [match_here]. destruct (a prev (hd_error s)); [auto|discriminate].
Qed.

Lemma match_assert_intro a p prev s :
  a prev (hd_error s) = true ->
  match_here (Assert a :: p) prev s = match_here p prev s.
Proof. intros H. cbn [match_here]. rewrite H. reflexivity. Qed.

Lemma last_char_in prev a :
  a <> [] -> exists x, last_char prev a = Some x /\ In x a.
Proof.
  intros N. destruct (exists_last N) as (a' & x & ->).
  exists x. rewrite last_char_app. split; [reflexivity|].
  apply in_or_app. right. left. reflexivity.
Qed.

Lemma nth_error_in_range (A : Type) (l : list A) i :
  i < List.length l -> exists x, nth_error l i = Some x /\ In x l.
Proof.
  intros L. destruct (nth_error l i) as [x|] eqn:E.
  - exists x. split; [reflexivity|]. eapply nth_error_In; exact E.
  - apply nth_error_None in E. lia.
Qed.

Section Shapes.
Context {U : UnicodeDB}.

Lemma ascii_digit_digit c : ascii_digit c = true -> digit c = true.
Proof.
  unfold ascii_digit, digit. intros H. 
  assert (L : N.ltb c 128 = true).
  { apply N.ltb_lt. unfold between in H. revert H. ch_num.
    rewrite andb_true_iff, !N.leb_le. lia. }
  rewrite L. exact H.
Qed.

Lemma ascii_digit_word c : ascii_digit c = true -> word c = true.
Proof.
  unfold ascii_digit, word. intros H.
  assert (L : N.ltb c 128 = true).
  { apply N.ltb_lt. unfold between in H. revert H. ch_num.
    rewrite andb_true_iff, !N.leb_le. lia. }
  rewrite L, H. rewrite !orb_true_r. reflexivity.
Qed.

Lemma ascii_digit_not_dash c : ascii_digit c = true -> eqc "-" c = false.
Proof.
  unfold ascii_digit, between, eqc. ch_num.
  rewrite andb_true_iff, !N.leb_le. intros H. apply N.eqb_neq. lia.
Qed.

(** What a match of the SSN pattern looks like. *)
Lemma ssn_match_inv prev s n :
  match_here re_ssn prev s = Some n ->
  n = 11 /\ word_boundary prev (hd_error s) = true /\
  nth_error s 3 = Some (ch "-") /\
  word_boundary (nth_error s 10) (nth_error s 11) = true.
Proof.
  intros H.
  pose proof (ReFacts.match_here_min _ _ _ H) as Lmin.
  pose proof (ReFacts.match_here_le _ _ _ H) as Lmax.
  change (min_length re_ssn) with 11 in Lmin.
  do 11 (destruct s as [|? s]; [cbn in Lmax; lia|]).
  unfold re_ssn, wb, one in H.
  apply match_assert_inv in H. destruct H as [W H]. cbn [hd_error] in W.
  apply match_fixed_inv in H. destruct H as (m1 & -> & _ & _ & H).
  apply match_fixed_inv in H. destruct H as (m2 & -> & _ & F1 & H).
  apply match_fixed_inv in H. destruct H as (m3 & -> & _ & _ & H).
  apply match_fixed_inv in H. destruct H as (m4 & -> & _ & _ & H).
  apply match_fixed_inv in H. destruct H as (m5 & -> & _ & _ & H).
  apply match_assert_inv in H. destruct H as [W2 H].
  cbn [firstn skipn prev_after rev app match_here] in H, F1, W2.
  cbn [nth_error hd_error].
  injection H as <-. inversion F1 as [|? ? E _]; subst.
  apply eqc_true in E. subst. repeat split; assumption.
Qed.


Lemma ssn_shaped_inv n :
  ssn_shaped n = true ->
  exists a b c, n = a ++ [ch "-"] ++ b ++ [ch "-"] ++ c /\
    List.length a = 3 /\ List.length b = 2 /\ List.length c = 4 /\
    Forall (fun x => ascii_digit x = true) a /\
    Forall (fun x => ascii_digit x = true) b /\
    Forall (fun x => ascii_digit x = true) c.
Proof.
  unfold ssn_shaped.
  do 11 (destruct n as [|? n]; [discriminate|]). destruct n; [|discriminate].
  cbn [forallb]. rewrite !andb_true_iff, !eqc_true.
  intros [[(A1 & A2 & A3 & B1 & B2 & C1 & C2 & C3 & C4 & _) ->] ->].
  exists [c; c0; c1], [c3; c4], [c6; c7; c8; c9].
  repeat split; repeat constructor; assumption.
Qed.

Lemma Forall_digit u :
  Forall (fun x => ascii_digit x = true) u -> Forall (fun x => digit x = true) u.
Proof. apply Forall_impl. exact ascii_digit_digit. Qed.

Lemma last_digit_word prev u :
  u <> [] -> Forall (fun x => ascii_digit x = true) u ->
  is_word (prev_after prev u) = true.
Proof.
  intros N F. destruct (last_char_in prev N) as (x & E & I).
  unfold last_char in E. rewrite E. cbn [is_word].
  rewrite Forall_forall in F. apply ascii_digit_word, F, I.
Qed.

Lemma match_ssn_shaped n prev r :
  ssn_shaped n = true ->
  is_word prev = false -> is_word (hd_error r) = false ->
  match_here re_ssn prev (n ++ r) = Some 11.
Proof.
  intros S Hp Hr. destruct (ssn_shaped_inv _ S) as (a & b & c & -> & La & Lb & Lc & Fa & Fb & Fc).
  rewrite <- !app_assoc.
  unfold re_ssn, wb, one.
  assert (W : word_boundary prev (hd_error (a ++ [ch "-"] ++ b ++ [ch "-"] ++ c ++ r)) = true).
  { destruct a as [|x a]; [discriminate La|]. cbn [app hd_error]. unfold word_boundary.
    rewrite Hp. cbn [is_word]. inversion Fa; subst.
    rewrite ascii_digit_word by assumption. reflexivity. }
  rewrite (match_assert_intro _ _ _ _ W).
  change 11 with (3 + (1 + (2 + (1 + (4 + 0))))).
  apply match_fixed_intro; [exact La|apply Forall_digit, Fa|].
  apply match_fixed_intro; [reflexivity|repeat constructor|].
  apply match_fixed_intro; [exact Lb|apply Forall_digit, Fb|].
  apply match_fixed_intro; [reflexivity|repeat constructor|].
  apply match_fixed_intro; [exact Lc|apply Forall_digit, Fc|].
  cbn [match_here]. unfold word_boundary. unfold char in *. rewrite Hr.
  rewrite last_digit_word; [reflexivity| |exact Fc].
  destruct c; [discriminate Lc|discriminate].
Qed.

Lemma card_shaped_inv n :
  card_shaped n = true ->
  List.length n = 16 /\ Forall (fun x => ascii_digit x = true) n.
Proof.
  unfold card_shaped. rewrite andb_true_iff, Nat.eqb_eq, forallb_forall, Forall_forall.
  tauto.
Qed.

Lemma match_card_shaped n prev r :
  card_shaped n = true ->
  is_word prev = false -> is_word (hd_error r) = false ->
  match_here re_card prev (n ++ r) = Some 16.
Proof.
  intros S Hp Hr. destruct (card_shaped_inv _ S) as [L F].
  unfold re_card, wb.
  assert (W : word_boundary prev (hd_error (n ++ r)) = true).
  { destruct n as [|x n]; [discriminate L|]. cbn [app hd_error]. unfold word_boundary.
    rewrite Hp. cbn [is_word]. inversion F; subst.
    rewrite ascii_digit_word by assumption. reflexivity. }
  rewrite (match_assert_intro _ _ _ _ W). change (Some 16) with (Some (16 + 0)).
  apply match_fixed_intro; [exact L|apply Forall_digit, F|].
  cbn [match_here]. unfold word_boundary. unfold char in *. rewrite Hr.
  rewrite last_digit_word; [reflexivity| |exact F].
  destruct n; [discriminate L|discriminate].
Qed.

(** A needle that the pattern matches whenever it stands between word
    boundaries is found by the scan. *)
Lemma search_delimited p needle n r l : forall prev,
  (forall prev r, is_word prev = false -> is_word (hd_error r) = false ->
                  match_here p prev (needle ++ r) = Some (S n)) ->
  is_word (last_char prev l) = false -> is_word (hd_error r) = false ->
  search_from p prev (l ++ needle ++ r) = true.
Proof.
  induction l as [|c l IH]; intros prev M Hp Hr.
  - eapply search_here. apply M; assumption.
  - cbn [app search_from]. rewrite last_char_cons in Hp.
    destruct (match_here p prev (c :: l ++ needle ++ r)) as [[|k]|];
      try reflexivity; apply IH; assumption.
Qed.

End Shapes.

Section KeepsDelimited.
(** A needle between word boundaries that no match can start in or run
    into is still between word boundaries after the substitution, when
    the replacement begins and ends with a non-word character. *)
Context {U : UnicodeDB}.
Variable p : regex.
Variable repl needle : str.
Hypothesis Hstart : forall a b prev r n,
  needle = a ++ b -> b <> [] ->
  match_here p (last_char prev a) (b ++ r) <> Some (S n).
Hypothesis Hover : forall l prev r n,
  match_here p prev (l ++ needle ++ r) = Some n -> n <= List.length l.
Hypothesis repl_first : is_word (hd_error repl) = false.
Hypothesis repl_last : forall prev, is_word (last_char prev repl) = false.
Hypothesis repl_nonempty : repl <> [].

Lemma sub_head prev r :
  is_word (hd_error r) = false ->
  is_word (hd_error (sub_from p repl 0 prev r)) = false.
Proof.
  destruct r as [|c r]; [auto|]. cbn [sub_from].
  destruct (match_here p prev (c :: r)) as [[|n]|]; auto.
  intros _. destruct repl; [contradiction|exact repl_first].
Qed.

Lemma sub_keeps_delimited r l : forall skip prev out_prev,
  skip <= List.length l ->
  (skip = 0 /\ out_prev = prev) \/ is_word out_prev = false ->
  is_word (last_char prev l) = false -> is_word (hd_error r) = false ->
  exists l' r', sub_from p repl skip prev (l ++ needle ++ r) = l' ++ needle ++ r' /\
                is_word (last_char out_prev l') = false /\
                is_word (hd_error r') = false.
Proof.
  induction l as [|c l IH]; intros skip prev out_prev Hk Inv Hl Hr.
  - assert (skip = 0) as -> by (cbn in Hk; lia).
    cbn [app]. pose proof (@sub_copies p repl needle Hstart needle [] prev r eq_refl) as C.
    change (last_char prev []) with prev in C. rewrite C.
    exists [], (sub_from p repl 0 (last_char prev needle) r).
    split; [reflexivity|]. split; [|apply sub_head; exact Hr].
    destruct Inv as [[_ ->]|Inv]; [exact Hl|exact Inv].
  - rewrite last_char_cons in Hl. cbn [app sub_from]. destruct skip as [|k].
    + destruct (match_here p prev (c :: l ++ needle ++ r)) as [[|n]|] eqn:M.
      * destruct (IH 0 (Some c) (Some c)) as (l' & r' & E & A & B);
          [lia|left; split; reflexivity|exact Hl|exact Hr|].
        exists (c :: l'), r'. rewrite E, last_char_cons. auto.
      * pose proof (Hover (c :: l) prev r M) as L. cbn [List.length] in L.
        destruct (IH n (Some c) (last_char out_prev repl)) as (l' & r' & E & A & B);
          [lia|right; apply repl_last|exact Hl|exact Hr|].
        exists (repl ++ l'), r'. rewrite E, last_char_app, <- app_assoc. auto.
      * destruct (IH 0 (Some c) (Some c)) as (l' & r' & E & A & B);
          [lia|left; split; reflexivity|exact Hl|exact Hr|].
        exists (c :: l'), r'. rewrite E, last_char_cons. auto.
    + destruct Inv as [[Z _]|Inv]; [discriminate Z|].
      cbn [List.length] in Hk.
      destruct (IH k (Some c) out_prev) as (l' & r' & E & A & B);
        [lia|right; exact Inv|exact Hl|exact Hr|].
      exists l', r'. auto.
Qed.

Lemma sub_delimited t :
  delimited needle t -> delimited needle (sub p repl t).
Proof.
  intros (l & r & -> & Hl & Hr). unfold sub.
  destruct (@sub_keeps_delimited r l 0 None None) as (l' & r' & E & A & B); auto; [lia|].
  exists l', r'. auto.
Qed.

End KeepsDelimited.

Section CardNumbers.
Context {U : UnicodeDB}.

Lemma digits_word n x :
  Forall (fun x => ascii_digit x = true) n -> In x n -> word x = true.
Proof. intros F I. rewrite Forall_forall in F. apply ascii_digit_word, F, I. Qed.

(** No match of the SSN pattern starts inside a run of sixteen digits. *)
Lemma ssn_outside_card needle a b prev r n :
  card_shaped needle = true ->
  needle = a ++ b -> b <> [] ->
  match_here re_ssn (last_char prev a) (b ++ r) <> Some (S n).
Proof.
  intros S E Hb M. destruct (card_shaped_inv _ S) as [L F].
  apply ssn_match_inv in M. destruct M as (_ & W & D & _).
  destruct a as [|a0 a'].
  - cbn [app] in E. subst b.
    rewrite nth_error_app1 in D by lia.
    destruct (@nth_error_in_range _ needle 3) as (x & Ex & I); [lia|].
    rewrite Ex in D. injection D as ->.
    rewrite Forall_forall in F. specialize (F _ I).
    apply ascii_digit_not_dash in F. discriminate F.
  - destruct (@last_char_in prev (a0 :: a')) as (x & Ex & I); [discriminate|].
    rewrite Ex in W. destruct b as [|y b]; [contradiction|].
    cbn [app hd_error] in W. unfold word_boundary in W. cbn [is_word] in W.
    assert (Wx : word x = true).
    { apply (@digits_word needle x F). rewrite E. apply in_or_app. left. exact I. }
    assert (Wy : word y = true).
    { apply (@digits_word needle y F). rewrite E. apply in_or_app. right. left. reflexivity. }
    rewrite Wx, Wy in W. discriminate W.
Qed.

(** No match of the SSN pattern that starts before a run of sixteen
    digits reaches into it. *)
Lemma ssn_before_card needle l prev r n :
  card_shaped needle = true ->
  match_here re_ssn prev (l ++ needle ++ r) = Some n -> n <= List.length l.
Proof.
  intros S M. destruct (card_shaped_inv _ S) as [L F].
  destruct (Nat.le_gt_cases n (List.length l)) as [G|G]; [exact G|exfalso].
  destruct l as [|c l].
  - destruct n as [|n]; [lia|].
    refine (@ssn_outside_card needle [] needle prev r n S eq_refl _ M).
    destruct needle; [discriminate L|discriminate].
  - apply ssn_match_inv in M. destruct M as (-> & _ & _ & W).
    set (q := List.length (c :: l)) in *.
    assert (Q : 1 <= q <= 10) by (unfold q in *; cbn [List.length] in *; lia).
    rewrite !(@nth_error_app2 _ (c :: l)) in W by (fold q; lia). fold q in W.
    rewrite !nth_error_app1 in W by lia.
    destruct (@nth_error_in_range _ needle (10 - q)) as (x & Ex & Ix); [lia|].
    destruct (@nth_error_in_range _ needle (11 - q)) as (y & Ey & Iy); [lia|].
    rewrite Ex, Ey in W. unfold word_boundary in W. cbn [is_word] in W.
    rewrite (@digits_word needle x F Ix), (@digits_word needle y F Iy) in W. discriminate W.
Qed.

Lemma pass_ssn_keeps_card needle t :
  card_shaped needle = true -> delimited needle t -> delimited needle (pass_ssn t).
Proof.
  intros S D. unfold pass_ssn. apply sub_delimited; try assumption.
  - intros a b prev r n. apply ssn_outside_card. exact S.
  - intros l prev r n. apply ssn_before_card. exact S.
  - reflexivity.
  - intros prev. reflexivity.
  - discriminate.
Qed.

Lemma search_card_delimited needle t :
  card_shaped needle = true -> delimited needle t -> search re_card t = true.
Proof.
  intros S (l & r & -> & Hl & Hr). unfold search.
  apply search_delimited with (n := 15); try assumption.
  intros prev r' Hp Hr'. apply match_card_shaped; assumption.
Qed.

(** X12.  Every run of sixteen ASCII digits that stands in the text
    between word boundaries is treated as a card number: the action is
    [FILTERED] and the filtered text contains ["[CARD_REDACTED]"].  The
    SSN pass, which runs first, cannot take a part of such a run. *)
Theorem apply_guardrails_card needle t :
  card_shaped needle = true -> delimited needle t ->
  action (apply_guardrails t) = FILTERED /\
  contains card_redacted (filtered_text (apply_guardrails t)) = true.
Proof.
  intros S D. apply (pass_ssn_keeps_card S) in D.
  apply (search_card_delimited S) in D.
  destruct (apply_guardrails_passes t) as (Ht & Hr & Ha). split.
  - rewrite Ha, Hr. pose proof (findall_nonempty _ _ D) as N.
    destruct (findall re_ssn t); [|reflexivity].
    destruct (findall re_card (pass_ssn t)); [contradiction|reflexivity].
  - rewrite Ht. apply contains_occurs. apply email_keeps_card_tag.
    unfold pass_card, sub. apply sub_found. exact D.
Qed.

End CardNumbers.

Section SsnNumbers.
Context {U : UnicodeDB}.

Lemma ssn_shaped_chars n x :
  ssn_shaped n = true -> In x n -> (ascii_digit x || eqc "-" x) = true.
Proof.
  intros S I. destruct (ssn_shaped_inv _ S) as (a & b & c & -> & _ & _ & _ & Fa & Fb & Fc).
  rewrite Forall_forall in Fa, Fb, Fc.
  repeat (apply in_app_or in I; destruct I as [I|I]);
    try (destruct I as [<-|[]]; reflexivity);
    rewrite ?(Fa _ I), ?(Fb _ I), ?(Fc _ I); reflexivity.
Qed.

Lemma ssn_shaped_disjoint n tag :
  ssn_shaped n = true ->
  forallb (fun x => negb (ascii_digit x || eqc "-" x)) tag = true ->
  disjoint n tag.
Proof.
  intros S T x In_n In_tag. rewrite forallb_forall in T.
  specialize (T _ In_tag). rewrite (@ssn_shaped_chars n x S In_n) in T. discriminate T.
Qed.

Lemma ssn_shaped_nonempty n : ssn_shaped n = true -> n <> [].
Proof. intros S ->. discriminate S. Qed.

Lemma search_ssn_shaped n t :
  ssn_shaped n = true -> delimited n t -> search re_ssn t = true.
Proof.
  intros S (l & r & -> & Hl & Hr). unfold search.
  apply search_delimited with (n := 10); try assumption.
  intros prev r' Hp Hr'. apply match_ssn_shaped; assumption.
Qed.

(** A number that stands between word boundaries wherever it occurs is
    not in the filtered text. *)
Lemma filtered_no_ssn n t :
  ssn_shaped n = true -> always_delimited n t ->
  contains n (filtered_text (apply_guardrails t)) = false.
Proof.
  intros S A. destruct (apply_guardrails_passes t) as (Ht & _ & _).
  rewrite Ht. apply not_contains. intros H.
  pose proof (ssn_shaped_nonempty S) as N.
  apply sub_no_new in H;
    [|discriminate|exact N|apply (@ssn_shaped_disjoint n _ S); reflexivity].
  apply sub_no_new in H;
    [|discriminate|exact N|apply (@ssn_shaped_disjoint n _ S); reflexivity].
  unfold pass_ssn, sub in H.
  apply sub_occurs_unmatched in H;
    [|discriminate|exact N|apply (@ssn_shaped_disjoint n _ S); reflexivity].
  destruct H as (l & r & E & M).
  destruct (A l r E) as [Hl Hr'].
  apply (M 10). apply match_ssn_shaped; assumption.
Qed.

(** X11.  For every number written [ddd-dd-dddd] in ASCII digits, not
    only the one of the specification's example: when it stands in the
    text between word boundaries, the action is [FILTERED] and the
    filtered text contains ["[SSN_REDACTED]"]; and when each of its
    occurrences stands between word boundaries, the filtered text does
    not contain it. *)
Theorem apply_guardrails_any_ssn n t :
  ssn_shaped n = true -> delimited n t ->
  action (apply_guardrails t) = FILTERED /\
  contains ssn_redacted (filtered_text (apply_guardrails t)) = true /\
  (always_delimited n t -> contains n (filtered_text (apply_guardrails t)) = false).
Proof.
  intros S D. pose proof (search_ssn_shaped S D) as F.
  destruct (apply_guardrails_passes t) as (Ht & Hr & Ha). split; [|split].
  - rewrite Ha, Hr. pose proof (findall_nonempty _ _ F) as N.
    destruct (findall re_ssn t); [contradiction|reflexivity].
  - rewrite Ht. apply contains_occurs.
    apply email_keeps_ssn_tag, card_keeps_ssn_tag.
    unfold pass_ssn, sub. apply sub_found. exact F.
  - apply filtered_no_ssn. exact S.
Qed.

End SsnNumbers.

(** ** Responses, errors and requests of the tasks *)

Section TaskResponse.
Context {U : UnicodeDB}.
Variable client : Type.
Variable converse : client -> request -> client * outcome pyval.
Variable subscript_error : pyval -> subscript -> str.
Variable not_a_string_error : pyval -> str.

Local Abbreviation run := (run_task converse subscript_error not_a_string_error).

(** What a task does with a response. *)
Lemma run_task_response t model_id w c resp :
  converse (bedrock_runtime w) (task_request t model_id (pdf_file w)) = (c, Return resp) ->
  if response_complete t resp
  then exists result, run t model_id w = (world_after w c, Return result)
  else exists rest,
         run t model_id w =
         (world_after w c, Raise (Exception (task_error_prefix t false ++ rest))).
Proof.
  intros H.
  destruct t as [style|prompt| |n|q g]; try destruct g; run_to_converse H;
    unfold response_complete, response_text, response_usage, guarded_answer, getitem,
      bind, ret, raise, text_path, usage_path, world_after;
    cbn [dig task_error_prefix];
    repeat match goal with
    | |- context [match subscript_value ?v ?i with _ => _ end] =>
        destruct (subscript_value v i) eqn:?
    | |- context [match ?x with VStr _ => _ | _ => _ end] => destruct x
    end;
    cbn [present andb is_client_error Exception exn_text];
    eexists; reflexivity.
Qed.

End TaskResponse.

Section TaskExtras.
Context {U : UnicodeDB}.
Variable client : Type.
Variable converse : client -> request -> client * outcome pyval.
Variable subscript_error : pyval -> subscript -> str.
Variable not_a_string_error : pyval -> str.

Local Abbreviation run := (run_task converse subscript_error not_a_string_error).
Local Abbreviation run_logged :=
  (run_task (logging converse) subscript_error not_a_string_error).


(** X13.  When the client answers, a task returns a result exactly
    when the response has every field that task reads: the text at
    [output.message.content[0].text] for all of them; for the two
    summary functions also [usage.inputTokens], [usage.outputTokens] and
    [stopReason]; for the Q&A function the two token counts and, with
    guardrails on, a text that is a string.  Sentiment and topics need
    neither [usage] nor [stopReason]. *)
Theorem task_returns_iff t model_id w resp :
  snd (converse (bedrock_runtime w) (task_request t model_id (pdf_file w))) = Return resp ->
  (exists result, snd (run t model_id w) = Return result) <->
  response_complete t resp = true.
Proof.
  intros H.
  destruct (converse (bedrock_runtime w) (task_request t model_id (pdf_file w)))
    as [c o] eqn:E.
  cbn [snd] in H. subst o. pose proof (@run_task_response _ _ converse subscript_error not_a_string_error t model_id w c resp E) as R.
  destruct (response_complete t resp).
  - destruct R as [result ->]. split; [reflexivity|]. intros _. exists result. reflexivity.
  - destruct R as [rest ->]. split; [|discriminate]. intros [result D]. discriminate D.
Qed.

(** X14.  Every exception that leaves a task function is a plain
    [Exception], never a [ClientError], and its text begins with one of
    the prefixes of that function. *)
Theorem task_errors_wrapped t model_id w e :
  snd (run t model_id w) = Raise e ->
  is_client_error e = false /\
  exists b rest, exn_text e = task_error_prefix t b ++ rest.
Proof.
  destruct (converse (bedrock_runtime w) (task_request t model_id (pdf_file w)))
    as [c [resp|e0]] eqn:E.
  - pose proof (@run_task_response _ _ converse subscript_error not_a_string_error t model_id w c resp E) as R.
    destruct (response_complete t resp).
    + destruct R as [result ->]. discriminate.
    + destruct R as [rest ->]. intros [= <-]. split; [reflexivity|].
      exists false, rest. reflexivity.
  - rewrite (run_task_raise _ subscript_error not_a_string_error _ _ _ E).
    intros [= <-]. split; [reflexivity|].
    exists (is_client_error e0), (exn_text e0). reflexivity.
Qed.

(** X16.  A task never changes the name or the content of the file,
    and whether it returns or raises it leaves the file positioned at
    its end: a [read()] by the caller without a [seek] gives nothing. *)
Theorem file_left_at_end t model_id w :
  let f := pdf_file w in
  let f' := pdf_file (fst (run t model_id w)) in
  name f' = name f /\ content f' = content f /\
  pos f' = List.length (content f) /\ snd (read f') = [].
Proof.
  cbv zeta. rewrite run_task_world. unfold world_after, file_after_read, read, seek0.
  cbn [pdf_file fst snd name content pos Nat.max]. repeat split.
  apply skipn_all.
Qed.

(** X15.  When the client answers with a response that lacks a field
    the task reads, the task raises.  The text of the exception begins
    with the prefix of the function's general handler (for the summary
    functions not with ["Bedrock API error: "]), and the client has
    been called exactly once: the response is dropped, not retried. *)
Theorem incomplete_response_fails_after_call t model_id
        (w : world (client * list request)) resp :
  snd (converse (fst (bedrock_runtime w)) (task_request t model_id (pdf_file w))) =
    Return resp ->
  response_complete t resp = false ->
  (exists rest, snd (run_logged t model_id w) =
                Raise (Exception (task_error_prefix t false ++ rest))) /\
  snd (bedrock_runtime (fst (run_logged t model_id w))) =
    snd (bedrock_runtime w) ++ [task_request t model_id (pdf_file w)].
Proof.
  intros H C. split; [|apply run_logged_calls].
  pose proof (logging_step converse w (task_request t model_id (pdf_file w))) as L.
  rewrite H in L.
  pose proof (@run_task_response _ _ (logging converse) subscript_error not_a_string_error t model_id w _ resp L) as R.
  rewrite C in R. destruct R as [rest ->]. exists rest. reflexivity.
Qed.


(** X17.  The request of every task has one message, of role
    ["user"], with one document part: its format is ["pdf"] and its
    name is the sanitized name of the file, so it is never empty and
    has no two consecutive spaces, even for a file without a name. *)
Theorem request_document t model_id (w : world (client * list request)) :
  exists req,
    snd (bedrock_runtime (fst (run_logged t model_id w))) = snd (bedrock_runtime w) ++ [req] /\
    map role (messages req) = [lit "user"] /\
    document_names req = [(sanitize_filename (name (pdf_file w)), lit "pdf")] /\
    Forall (fun d => fst d <> [] /\ contains (lit "  ") (fst d) = false)
           (document_names req).
Proof.
  exists (task_request t model_id (pdf_file w)).
  split; [apply run_logged_calls|]. split; [reflexivity|]. split; [reflexivity|].
  constructor; [|constructor]. cbn [fst].
  pose proof (sanitize_filename_shape (name (pdf_file w))). tauto.
Qed.

(** X18.  With a style that is not one of the four, the summary task
    is the task of style ["concise"]: same request, same result, same
    exception, same state afterwards. *)
Theorem unknown_style_runs_concise style model_id w :
  ~ In style four_styles ->
  run (Summarize style) model_id w = run (Summarize (lit "concise")) model_id w.
Proof.
  intros H. unfold run_task, summarize_pdf_document.
  assert (E : summary_prompt style = summary_prompt (lit "concise")).
  { unfold summary_prompt. apply dict_get_missing. exact H. }
  rewrite E. reflexivity.
Qed.

(** X19.  [summarize_pdf_with_converse] called with the prompt of a
    style does what [summarize_pdf_document] does with that style: the
    same state afterwards, the same result when one of them returns,
    and an exception when the other one raises (the two differ only in
    the prefix of the general handler). *)
Theorem custom_prompt_as_style style model_id w :
  let a := run (Summarize style) model_id w in
  let b := run (CustomPrompt (summary_prompt style)) model_id w in
  fst a = fst b /\
  (forall result, snd a = Return result <-> snd b = Return result) /\
  (forall e, snd a = Raise e -> exists e', snd b = Raise e').
Proof.
  cbv zeta. unfold run_task, summarize_pdf_document, summarize_pdf_with_converse,
    try_except.
  match goal with
  | |- context [match ?m w with _ => _ end] => destruct (m w) as [w' [r|e]]
  end.
  - repeat split; auto. intros e D. discriminate D.
  - destruct (is_client_error e); unfold raise; cbn [fst snd];
      repeat split; try discriminate; intros; eexists; reflexivity.
Qed.

End TaskExtras.

Lemma lit_inj a b : lit a = lit b -> a = b.
Proof.
  unfold lit. intros H.
  rewrite <- (string_of_list_ascii_of_string a), <- (string_of_list_ascii_of_string b).
  f_equal. revert H. generalize (list_ascii_of_string a) (list_ascii_of_string b).
  induction l as [|x l IH]; intros [|y l']; cbn [map]; try discriminate; [reflexivity|].
  intros [= E1 E2]. f_equal; [|apply IH; exact E2].
  unfold ch in E1. rewrite <- (ascii_N_embedding x), <- (ascii_N_embedding y), E1.
  reflexivity.
Qed.

Lemma to_int_not_nil z :
  Z.to_int z <> Decimal.Pos Decimal.Nil /\ Z.to_int z <> Decimal.Neg Decimal.Nil.
Proof.
  split; intros E; pose proof (f_equal Z.of_int E) as Z0;
    rewrite DecimalZ.of_to in Z0; cbn in Z0; subst z; discriminate E.
Qed.

Lemma str_of_int_inj n m : str_of_int n = str_of_int m -> n = m.
Proof.
  unfold str_of_int. intros H. apply lit_inj in H.
  apply DecimalZ.to_int_inj.
  destruct (to_int_not_nil n) as [N1 N2]. destruct (to_int_not_nil m) as [M1 M2].
  pose proof (NilZero.isi _ N1 N2) as A. pose proof (NilZero.isi _ M1 M2) as B.
  rewrite H in A. rewrite A in B. injection B as B. exact B.
Qed.

(** X20.  The topics prompt determines the number of topics: two
    different counts, negative ones and zero included, never give the
    same prompt. *)
Theorem topics_prompt_injective n m : topics_prompt n = topics_prompt m -> n = m.
Proof.
  unfold topics_prompt. intros H.
  apply app_inv_head, app_inv_tail in H. apply str_of_int_inj. exact H.
Qed.

Section QuestionGuard.
Context {U : UnicodeDB}.



End QuestionGuard.

Section AnswerGuard.
Context {U : UnicodeDB}.
Variable client : Type.
Variable converse : client -> request -> client * outcome pyval.
Variable subscript_error : pyval -> subscript -> str.
Variable not_a_string_error : pyval -> str.

Local Abbreviation run := (run_task converse subscript_error not_a_string_error).

(** X22.  With guardrails on, the answer the Q&A function returns is
    the filtered text of the model's answer: no number written
    [ddd-dd-dddd] that stands between word boundaries wherever it occurs
    in the model's answer reaches the caller. *)
Theorem answer_ssn_redacted question model_id w result :
  snd (run (QuestionAnswer question true) model_id w) = Return result ->
  exists a,
    (exists resp,
       snd (converse (bedrock_runtime w)
              (task_request (QuestionAnswer question true) model_id (pdf_file w))) =
         Return resp /\
       dig resp text_path = Some (VStr a)) /\
    subscript_value result (Key (lit "answer")) =
      Some (VStr (filtered_text (apply_guardrails a))) /\
    forall n, ssn_shaped n = true -> always_delimited n a ->
              contains n (filtered_text (apply_guardrails a)) = false.
Proof.
  destruct (converse (bedrock_runtime w)
              (task_request (QuestionAnswer question true) model_id (pdf_file w)))
    as [c [resp|e]] eqn:E; intros H.
  - destruct (run_task_return _ subscript_error not_a_string_error _ _ _ E) as (out & R & S).
    rewrite R in H. cbn [snd] in H. specialize (S _ H).
    destruct S as (text & T & answer & it & ot & (a & -> & ->) & _ & _ & ->).
    exists a. split; [exists resp; split; [reflexivity|exact T]|].
    split; [reflexivity|]. intros n. apply filtered_no_ssn.
  - rewrite (run_task_raise _ subscript_error not_a_string_error _ _ _ E) in H. discriminate.
Qed.

End AnswerGuard.

(** ** The application *)

Section ApplicationFacts.
Context {U : UnicodeDB}.
Variable client : Type.
Variable converse : client -> request -> client * outcome pyval.
Variable subscript_error : pyval -> subscript -> str.
Variable not_a_string_error : pyval -> str.

Local Abbreviation run := (run_task converse subscript_error not_a_string_error).
Local Abbreviation call := (call_answer_questions converse subscript_error not_a_string_error).
Local Abbreviation handle := (handle_question converse subscript_error not_a_string_error).

(** X23.  The application calls
    [answer_questions_about_document(pdf_file, question, model_id)].
    The third positional parameter is [chat_history], so the call runs
    the Q&A task on [DEFAULT_LLM_MODEL] with guardrails off, whatever
    model id was passed; the model id is used when it comes fourth. *)
Theorem third_positional_is_chat_history question model_id :
  call [VStr question; VStr model_id] =
    Some (run (QuestionAnswer question false) DEFAULT_LLM_MODEL) /\
  forall chat_history,
    call [VStr question; chat_history; VStr model_id] =
      Some (run (QuestionAnswer question false) model_id).
Proof. split; reflexivity. Qed.

Lemma handle_nonempty c q model_id history :
  handle (Some (c :: q)) model_id history =
  Some (fun w =>
          match run (QuestionAnswer (c :: q) false) DEFAULT_LLM_MODEL w with
          | (w', Return result) =>
              match subscript_value result (Key (lit "answer")) with
              | Some answer => (w', (history ++ [(c :: q, answer)], None))
              | None =>
                  (w', (history,
                        Some (cross_mark ++ lit "Error: " ++
                              subscript_error result (Key (lit "answer")))))
              end
          | (w', Raise e) =>
              (w', (history, Some (cross_mark ++ lit "Error: " ++ exn_text e)))
          end).
Proof. reflexivity. Qed.

(** X25.  What the chat-input handler does to the chat history.  With
    no question or an empty one nothing happens: no call is made and
    the file is not read.  Otherwise, when the Q&A task gets a complete
    response, one entry is appended, holding the question as typed and
    the text of the response; when the response is incomplete or the
    client raises, the history is unchanged and the error line is
    the cross mark, ["Error: "], ["Error answering question: "] and the
    text of the cause. *)
Theorem handle_question_history question model_id history w :
  exists f, handle question model_id history = Some f /\
  match question with
  | Some (c :: q') =>
      let q := c :: q' in
      match snd (converse (bedrock_runtime w)
                   (task_request (QuestionAnswer q false) DEFAULT_LLM_MODEL (pdf_file w))) with
      | Return resp =>
          if response_complete (QuestionAnswer q false) resp
          then exists answer, dig resp text_path = Some answer /\
                              snd (f w) = (history ++ [(q, answer)], None)
          else exists rest,
                 snd (f w) =
                 (history, Some (cross_mark ++ lit "Error: " ++
                                 lit "Error answering question: " ++ rest))
      | Raise e =>
          snd (f w) =
          (history, Some (cross_mark ++ lit "Error: " ++
                          lit "Error answering question: " ++ exn_text e))
      end
  | _ => f w = (w, (history, None))
  end.
Proof.
  destruct question as [[|c q]|]; try (eexists; split; reflexivity).
  eexists. split; [apply handle_nonempty|]. cbv zeta.
  destruct (converse (bedrock_runtime w)
              (task_request (QuestionAnswer (c :: q) false) DEFAULT_LLM_MODEL (pdf_file w)))
    as [cl [resp|e]] eqn:E; cbn [snd].
  - pose proof (@run_task_response _ _ converse subscript_error not_a_string_error
                  _ _ _ _ _ E) as R.
    destruct (run_task_return _ subscript_error not_a_string_error _ _ _ E)
      as (out & Ro & S).
    destruct (response_complete (QuestionAnswer (c :: q) false) resp).
    + destruct R as [result R]. rewrite R in Ro. injection Ro as <-.
      destruct (S _ eq_refl) as (text & T & answer & it & ot & -> & _ & _ & ->).
      exists text. split; [exact T|]. rewrite R. reflexivity.
    + destruct R as [rest R]. exists rest. rewrite R. reflexivity.
  - rewrite (run_task_raise _ subscript_error not_a_string_error _ _ _ E). reflexivity.
Qed.

End ApplicationFacts.

Section ApplicationRequests.
Context {U : UnicodeDB}.
Variable client : Type.
Variable converse : client -> request -> client * outcome pyval.
Variable subscript_error : pyval -> subscript -> str.
Variable not_a_string_error : pyval -> str.

(** X24.  For a non-empty question the chat-input handler sends
    exactly one request; its model id is [DEFAULT_LLM_MODEL], whatever
    model is selected in the sidebar, and its text part carries the
    question as typed. *)
Theorem app_question_request c q model_id history
        (w : world (client * list request)) :
  exists f req,
    handle_question (logging converse) subscript_error not_a_string_error
                    (Some (c :: q)) model_id history = Some f /\
    snd (bedrock_runtime (fst (f w))) = snd (bedrock_runtime w) ++ [req] /\
    modelId req = DEFAULT_LLM_MODEL /\
    text_parts req = [lit "Based on this document, answer: " ++ c :: q].
Proof.
  eexists. exists (task_request (QuestionAnswer (c :: q) false) DEFAULT_LLM_MODEL (pdf_file w)).
  split; [apply handle_nonempty|]. split; [|split; reflexivity].
  rewrite <- (run_logged_calls converse subscript_error not_a_string_error).
  destruct (run_task (logging converse) subscript_error not_a_string_error
              (QuestionAnswer (c :: q) false) DEFAULT_LLM_MODEL w) as [w' [result|e]];
    [destruct (subscript_value result (Key (lit "answer")))|]; reflexivity.
Qed.

End ApplicationRequests.

Section ChatExport.
Variable py_str : pyval -> str.

Lemma enumerate_app (A : Type) (a b : list A) : forall start,
  enumerate start (a ++ b) =
  enumerate start a ++ enumerate (start + Z.of_nat (List.length a)) b.
Proof.
  induction a as [|x a IH]; intros start; cbn [app enumerate List.length].
  - rewrite Z.add_0_r. reflexivity.
  - rewrite IH. do 3 f_equal. lia.
Qed.

(** X26.  The export text grows by appending: the export of a history
    with one more entry is the export of the history followed by the
    block of the new entry, numbered with its position counted from 1. *)
Theorem export_chat_append history question answer :
  export_chat py_str (history ++ [(question, answer)]) =
  export_chat py_str history ++
  lit "## Question " ++ str_of_int (Z.of_nat (List.length history) + 1) ++ newline ++
  question ++ newline ++ newline ++
  lit "## Answer " ++ str_of_int (Z.of_nat (List.length history) + 1) ++ newline ++
  format_value py_str answer ++ newline ++ newline ++
  lit "---" ++ newline ++ newline.
Proof.
  unfold export_chat. rewrite enumerate_app, fold_left_app. cbn [enumerate fold_left].
  unfold export_step at 1. cbn [fst snd]. rewrite (Z.add_comm 1).
  rewrite <- !app_assoc. reflexivity.
Qed.

End ChatExport.

(** ** Concrete runs of the further properties *)

(** X6, witness. *)
Lemma sanitize_filename_fallback_witness :
  blank (lit "   ") /\ sanitize_filename (Some (lit "   ")) = default_name.
Proof.
  assert (H : blank (lit "   ")) by (repeat constructor).
  split; [exact H|].
  exact (proj2 (sanitize_filename_fallback (lit "   ")) H).
Defined.

(** X8, witness. *)
Lemma allowed_means_unchanged_witness :
  let t := lit "Summarise chapter 2, please." in
  action (@apply_guardrails basic_latin t) = ALLOWED /\
  filtered_text (@apply_guardrails basic_latin t) = t /\
  redactions (@apply_guardrails basic_latin t) = [].
Proof.
  cbv zeta.
  assert (H : action (@apply_guardrails basic_latin (lit "Summarise chapter 2, please."))
              = ALLOWED) by (vm_compute; reflexivity).
  split; [exact H|].
  exact (@allowed_means_unchanged basic_latin (lit "Summarise chapter 2, please.") H).
Defined.

(** X9, witness. *)
Lemma apply_guardrails_filtered_placeholder_witness :
  let t := lit "write to bob@example.com" in
  action (@apply_guardrails basic_latin t) = FILTERED /\
  exists tag, In tag placeholders /\
              contains tag (filtered_text (@apply_guardrails basic_latin t)) = true.
Proof.
  cbv zeta.
  assert (H : action (@apply_guardrails basic_latin (lit "write to bob@example.com"))
              = FILTERED) by (vm_compute; reflexivity).
  split; [exact H|].
  exact (@apply_guardrails_filtered_placeholder basic_latin
           (lit "write to bob@example.com") H).
Defined.

(** X10, witness. *)
Lemma apply_guardrails_needs_digit_or_at_witness :
  let t := lit "Who wrote this - and why?" in
  Forall (fun c => @digit basic_latin c = false /\ eqc "@" c = false) t /\
  @apply_guardrails basic_latin t =
    {| filtered_text := t; redactions := []; action := ALLOWED |}.
Proof.
  cbv zeta.
  assert (H : Forall (fun c => @digit basic_latin c = false /\ eqc "@" c = false)
                     (lit "Who wrote this - and why?"))
    by (repeat constructor).
  split; [exact H|].
  exact (@apply_guardrails_needs_digit_or_at basic_latin _ H).
Defined.

(** X11, witness. *)
Lemma apply_guardrails_any_ssn_witness :
  let n := lit "078-05-1120" in
  let t := lit "SSN: 078-05-1120." in
  ssn_shaped n = true /\ @delimited basic_latin n t /\
  action (@apply_guardrails basic_latin t) = FILTERED /\
  contains ssn_redacted (filtered_text (@apply_guardrails basic_latin t)) = true /\
  (@always_delimited basic_latin n t ->
   contains n (filtered_text (@apply_guardrails basic_latin t)) = false).
Proof.
  cbv zeta.
  assert (D : @delimited basic_latin (lit "078-05-1120") (lit "SSN: 078-05-1120.")).
  { exists (lit "SSN: "), (lit "."). repeat split. }
  split; [reflexivity|]. split; [exact D|].
  exact (@apply_guardrails_any_ssn basic_latin (lit "078-05-1120")
           (lit "SSN: 078-05-1120.") eq_refl D).
Defined.

(** X12, witness. *)
Lemma apply_guardrails_card_witness :
  let n := lit "4111111111111111" in
  let t := lit "card 4111111111111111, exp 12/27" in
  card_shaped n = true /\ @delimited basic_latin n t /\
  action (@apply_guardrails basic_latin t) = FILTERED /\
  contains card_redacted (filtered_text (@apply_guardrails basic_latin t)) = true.
Proof.
  cbv zeta.
  assert (D : @delimited basic_latin (lit "4111111111111111")
                (lit "card 4111111111111111, exp 12/27")).
  { exists (lit "card "), (lit ", exp 12/27"). repeat split. }
  split; [reflexivity|]. split; [exact D|].
  exact (@apply_guardrails_card basic_latin (lit "4111111111111111")
           (lit "card 4111111111111111, exp 12/27") eq_refl D).
Defined.

(** X13, witness. *)
Lemma task_returns_iff_witness :
  snd (sample_converse (bedrock_runtime sample_world)
         (@task_request basic_latin (Topics 5) DEFAULT_LLM_MODEL (pdf_file sample_world)))
    = Return sample_response /\
  ((exists result,
      snd (@run_task basic_latin _ sample_converse no_text no_text' (Topics 5)
             DEFAULT_LLM_MODEL sample_world) = Return result) <->
   response_complete (Topics 5) sample_response = true).
Proof.
  split; [reflexivity|].
  exact (@task_returns_iff basic_latin unit sample_converse no_text no_text'
           (Topics 5) DEFAULT_LLM_MODEL sample_world sample_response eq_refl).
Defined.

(** X14, witness. *)
Lemma task_errors_wrapped_witness :
  let e := Exception (lit "Bedrock API error: ThrottlingException") in
  snd (@run_task basic_latin _ failing_converse no_text no_text'
         (Summarize (lit "detailed")) DEFAULT_LLM_MODEL sample_world) = Raise e /\
  is_client_error e = false /\
  exists b rest, exn_text e = task_error_prefix (Summarize (lit "detailed")) b ++ rest.
Proof.
  cbv zeta. split; [reflexivity|].
  exact (@task_errors_wrapped basic_latin unit failing_converse no_text no_text'
           (Summarize (lit "detailed")) DEFAULT_LLM_MODEL sample_world _ eq_refl).
Defined.

(** X15, witness. *)
Lemma incomplete_response_fails_after_call_witness :
  let t := Sentiment in
  snd (empty_converse (fst (bedrock_runtime sample_logged_world))
         (@task_request basic_latin t DEFAULT_LLM_MODEL (pdf_file sample_logged_world)))
    = Return (VDict []) /\
  response_complete t (VDict []) = false /\
  (exists rest,
     snd (@run_task basic_latin _ (logging empty_converse) no_text no_text' t
            DEFAULT_LLM_MODEL sample_logged_world)
       = Raise (Exception (task_error_prefix t false ++ rest))) /\
  snd (bedrock_runtime
         (fst (@run_task basic_latin _ (logging empty_converse) no_text no_text' t
                 DEFAULT_LLM_MODEL sample_logged_world)))
    = snd (bedrock_runtime sample_logged_world) ++
      [@task_request basic_latin t DEFAULT_LLM_MODEL (pdf_file sample_logged_world)].
Proof.
  cbv zeta. split; [reflexivity|]. split; [reflexivity|].
  exact (@incomplete_response_fails_after_call basic_latin unit empty_converse
           no_text no_text' Sentiment DEFAULT_LLM_MODEL sample_logged_world
           (VDict []) eq_refl eq_refl).
Defined.

(** X18, witness. *)
Lemma unknown_style_runs_concise_witness :
  ~ In (lit "Concise") four_styles /\
  @run_task basic_latin _ sample_converse no_text no_text' (Summarize (lit "Concise"))
    DEFAULT_LLM_MODEL sample_world =
  @run_task basic_latin _ sample_converse no_text no_text' (Summarize (lit "concise"))
    DEFAULT_LLM_MODEL sample_world.
Proof.
  assert (H : ~ In (lit "Concise") four_styles) by (cbn; intuition discriminate).
  split; [exact H|].
  exact (@unknown_style_runs_concise basic_latin unit sample_converse no_text no_text'
           (lit "Concise") DEFAULT_LLM_MODEL sample_world H).
Defined.

(** X20, witness. *)
Lemma topics_prompt_injective_witness :
  topics_prompt 7 = topics_prompt (3 + 4) /\ 7%Z = (3 + 4)%Z.
Proof.
  split; [reflexivity|].
  exact (@topics_prompt_injective 7 (3 + 4) eq_refl).
Defined.

(** X22, witness. *)
Lemma answer_ssn_redacted_witness :
  let result := VDict [(lit "answer", VStr (lit "X"));
                       (lit "question", VStr (lit "Who signed?"));
                       (lit "model", VStr DEFAULT_LLM_MODEL);
                       (lit "input_tokens", VInt 10);
                       (lit "output_tokens", VInt 5)] in
  snd (@run_task basic_latin _ sample_converse no_text no_text'
         (QuestionAnswer (lit "Who signed?") true) DEFAULT_LLM_MODEL sample_world)
    = Return result /\
  exists a,
    (exists resp,
       snd (sample_converse (bedrock_runtime sample_world)
              (@task_request basic_latin (QuestionAnswer (lit "Who signed?") true)
                 DEFAULT_LLM_MODEL (pdf_file sample_world))) = Return resp /\
       dig resp text_path = Some (VStr a)) /\
    subscript_value result (Key (lit "answer")) =
      Some (VStr (filtered_text (@apply_guardrails basic_latin a))) /\
    forall n, ssn_shaped n = true -> @always_delimited basic_latin n a ->
              contains n (filtered_text (@apply_guardrails basic_latin a)) = false.
Proof.
  cbv zeta. split; [vm_compute; reflexivity|].
  exact (@answer_ssn_redacted basic_latin unit sample_converse no_text no_text'
           (lit "Who signed?") DEFAULT_LLM_MODEL sample_world _ eq_refl).
Defined.
